(** * brita-filler: the pour-control state machine of [brita-filler.ino]

    A shallow embedding of the sketch's control logic: the sensor debouncer
    [update_auto_pour], the state machine [update_state], the valve decision
    [should_pour] and the two ways they are driven ([refresh] from the pin
    interrupts, [loop] from the polling interval), followed by the properties
    the specification states about them. *)

From Stdlib Require Import ZArith Bool List Lia.
From Stdlib Require Strings.String Strings.Ascii.
From Stdlib Require Numbers.DecimalString Numbers.DecimalZ Numbers.DecimalPos.
Import ListNotations.
Local Open Scope Z_scope.

(** ** Machine integers

    Timestamps are [unsigned long] (32 bits on the boards the sketch targets),
    the debounce counter is an [unsigned char], the raw reading an [int].
    All three are carried as [Z]; the wrap-around of the two unsigned
    operations the sketch performs is written out. *)

Definition ULONG_MODULUS : Z := 2 ^ 32.
Definition UCHAR_MODULUS : Z := 2 ^ 8.

(** [a - b] on [unsigned long]. *)
Definition ulong_sub (a b : Z) : Z := (a - b) mod ULONG_MODULUS.

(** [c++] on [unsigned char]. *)
Definition uchar_incr (c : Z) : Z := (c + 1) mod UCHAR_MODULUS.

Definition is_ulong (t : Z) : Prop := 0 <= t < ULONG_MODULUS.
Definition is_uchar (c : Z) : Prop := 0 <= c < UCHAR_MODULUS.

(** ** Build-time constants *)

Definition UPDATE_FREQ_MS : Z := 1000.
Definition THRESHOLD : Z := 900.
Definition CONSECUTIVE : Z := 5.
Definition LOCKOUT_TIME_MS : Z := 30000.
Definition HYSTERESIS_TIME_MS : Z := 10000.

(** ** Data model *)

(** [pour_t]: the currently active pour. *)
Record pour_t : Set := mk_pour {
  manual : bool;
  start : Z;
  lockout_start : Z
}.

(** A [pour_t*] that is not [NULL].  The sketch owns a single [pour_t]
    object, the global [current_pour]; [&current_pour] is the only address
    ever stored in the state. *)
Inductive pour_ptr : Set := addr_current_pour.

(** [state_t]: [current_pour] is the pointer, [None] standing for [NULL]. *)
Record state_t : Set := mk_state {
  current_pour : option pour_ptr;
  lockout : bool;
  count : Z;
  last_raw_reading : Z
}.

(** The two globals of the sketch.  The [pour_t] object is named
    [current_pour] in the source, like the pointer field that aliases it;
    here it is the cell [current_pour_cell]. *)
Record memory : Set := mk_memory {
  current_pour_cell : pour_t;
  program_state : state_t
}.

(** What the hardware answers during one run of the control code:
    [digitalRead(ENABLE)], [digitalRead(MANUAL)], [analogRead(SENSE)] and
    [millis()]. *)
Record pins : Set := mk_pins {
  is_enabled : bool;
  is_manual : bool;
  raw_sense : Z;
  millis : Z
}.

(** Initial values of the globals ([last_raw_reading] has static storage and
    no initialiser, hence 0). *)
Definition boot : memory :=
  {| current_pour_cell := {| manual := false; start := 0; lockout_start := 0 |};
     program_state := {| current_pour := None; lockout := false;
                         count := 0; last_raw_reading := 0 |} |}.

(** *** Loads and stores *)

Definition load (m : memory) (p : pour_ptr) : pour_t :=
  match p with addr_current_pour => current_pour_cell m end.

Definition store (p : pour_ptr) (v : pour_t) (m : memory) : memory :=
  match p with
  | addr_current_pour =>
      {| current_pour_cell := v; program_state := program_state m |}
  end.

(** [p->manual = v], [p->start = v], [p->lockout_start = v]. *)
Definition set_manual (p : pour_ptr) (v : bool) (m : memory) : memory :=
  let c := load m p in
  store p {| manual := v; start := start c; lockout_start := lockout_start c |} m.

Definition set_start (p : pour_ptr) (v : Z) (m : memory) : memory :=
  let c := load m p in
  store p {| manual := manual c; start := v; lockout_start := lockout_start c |} m.

Definition set_lockout_start (p : pour_ptr) (v : Z) (m : memory) : memory :=
  let c := load m p in
  store p {| manual := manual c; start := start c; lockout_start := v |} m.

Definition with_state (f : state_t -> state_t) (m : memory) : memory :=
  {| current_pour_cell := current_pour_cell m;
     program_state := f (program_state m) |}.

(** [state->current_pour = v], [state->lockout = v], [state->count = v],
    [state->last_raw_reading = v]. *)
Definition set_current_pour (v : option pour_ptr) : memory -> memory :=
  with_state (fun s => {| current_pour := v; lockout := lockout s;
                          count := count s;
                          last_raw_reading := last_raw_reading s |}).

Definition set_lockout (v : bool) : memory -> memory :=
  with_state (fun s => {| current_pour := current_pour s; lockout := v;
                          count := count s;
                          last_raw_reading := last_raw_reading s |}).

Definition set_count (v : Z) : memory -> memory :=
  with_state (fun s => {| current_pour := current_pour s; lockout := lockout s;
                          count := v;
                          last_raw_reading := last_raw_reading s |}).

Definition set_last_raw_reading (v : Z) : memory -> memory :=
  with_state (fun s => {| current_pour := current_pour s; lockout := lockout s;
                          count := count s; last_raw_reading := v |}).

(** Statements run left to right. *)
Notation "m |> f" := (f m) (at level 45, left associativity, only parsing).

(** ** The sensor debouncer *)

(** [update_auto_pour]: record the reading and update the run of consecutive
    readings at or below [THRESHOLD].  (The source declares a [bool] result
    that it never returns and that [loop] ignores.) *)
Definition update_auto_pour (hw : pins) (m : memory) : memory :=
  let current_sense := raw_sense hw in
  let m := m |> set_last_raw_reading current_sense in
  let state := program_state m in
  if (current_sense <=? THRESHOLD) && (count state <? CONSECUTIVE) then
    m |> set_count (uchar_incr (count state))
  else if THRESHOLD <? current_sense then
    m |> set_count 0
  else m.

(** ** The pour state machine *)

(** The two interval tests of [update_state], as written there:
    [current_time < ref || current_time - ref >= LIMIT]. *)
Definition expired (limit current_time ref : Z) : bool :=
  (current_time <? ref) || (limit <=? ulong_sub current_time ref).

Definition update_state (hw : pins) (m : memory) : memory :=
  let enabled := is_enabled hw in
  if negb enabled || lockout (program_state m) then
    let m := if negb enabled then m |> set_lockout false else m in
    m |> set_count 0 |> set_current_pour None
  else
    let current_time := millis hw in
    match current_pour (program_state m) with
    | Some pour =>
        if expired LOCKOUT_TIME_MS current_time (lockout_start (load m pour))
        then
          m |> set_start pour 0 |> set_lockout_start pour 0
            |> set_manual pour false
            |> set_lockout true |> set_current_pour None |> set_count 0
        else if is_manual hw then
          m |> set_manual pour true |> set_count 0
        else if CONSECUTIVE <=? count (program_state m) then
          m |> set_manual pour false |> set_start pour current_time
        else if manual (load m pour) then
          m |> set_manual pour false |> set_start pour 0
            |> set_lockout_start pour 0 |> set_current_pour None
        else if expired HYSTERESIS_TIME_MS current_time (start (load m pour))
        then
          m |> set_start pour 0 |> set_manual pour false
            |> set_lockout_start pour 0 |> set_current_pour None
        else m
    | None =>
        if is_manual hw then
          m |> set_manual addr_current_pour true
            |> set_lockout_start addr_current_pour current_time
            |> set_start addr_current_pour current_time
            |> set_count 0
            |> set_current_pour (Some addr_current_pour)
        else if CONSECUTIVE <=? count (program_state m) then
          m |> set_manual addr_current_pour false
            |> set_start addr_current_pour current_time
            |> set_lockout_start addr_current_pour current_time
            |> set_current_pour (Some addr_current_pour)
        else m
    end.

(** [should_pour]: pour exactly when a pour is recorded. *)
Definition should_pour (m : memory) : bool :=
  match current_pour (program_state m) with
  | Some _ => true
  | None => false
  end.

(** [refresh]: one evaluation; the second component is the level written to
    the valve pin ([true] for [HIGH], valve open). *)
Definition refresh (hw : pins) (m : memory) : memory * bool :=
  let m' := update_state hw m in (m', should_pour m').

(** [loop]: one polling interval (printing and the delay leave the globals
    alone). *)
Definition loop (hw : pins) (m : memory) : memory * bool :=
  refresh hw (update_auto_pour hw m).

(** The pour the state points to, if any. *)
Definition active_pour (m : memory) : option pour_t :=
  option_map (load m) (current_pour (program_state m)).

(** ** Runs

    The control code runs either from a pin-change interrupt ([refresh]
    alone) or from the polling loop ([loop]).  Each evaluation is taken as a
    whole: an interrupt that arrives while another evaluation is in progress
    is not part of this model. *)
Inductive event : Set :=
| Interrupt (hw : pins)
| Poll (hw : pins).

Definition pins_of (e : event) : pins :=
  match e with Interrupt hw | Poll hw => hw end.

Definition step (e : event) (m : memory) : memory :=
  match e with
  | Interrupt hw => fst (refresh hw m)
  | Poll hw => fst (loop hw m)
  end.

Definition run (es : list event) (m : memory) : memory :=
  fold_left (fun m e => step e m) es m.

(** Valve levels written during a run, oldest first. *)
Fixpoint valve_trace (es : list event) (m : memory) : list bool :=
  match es with
  | [] => []
  | e :: es' => let m' := step e m in should_pour m' :: valve_trace es' m'
  end.

(** ** Vocabulary of the properties *)

(** Timestamps and counter of the globals fit their C types. *)
Definition wf_memory (m : memory) : Prop :=
  is_ulong (start (current_pour_cell m)) /\
  is_ulong (lockout_start (current_pour_cell m)) /\
  is_uchar (count (program_state m)).

Definition wf_event (e : event) : Prop := is_ulong (millis (pins_of e)).

(** The state half of the invariants: a locked-out state records no pour. *)
Definition lockout_excludes_pour (m : memory) : Prop :=
  lockout (program_state m) = true -> current_pour (program_state m) = None.

(** The pour object as every closing path leaves it. *)
Definition closed_cell : pour_t :=
  {| manual := false; start := 0; lockout_start := 0 |}.

(** Pressing the manual button at start-up, time 0. *)
Definition press_at_boot : event :=
  Interrupt {| is_enabled := true; is_manual := true;
               raw_sense := 0; millis := 0 |}.

Definition dry_poll (t : Z) : event :=
  Poll {| is_enabled := true; is_manual := false;
          raw_sense := 800; millis := t |}.

Definition wet_poll (t : Z) : event :=
  Poll {| is_enabled := true; is_manual := false;
          raw_sense := 950; millis := t |}.

(** Five dry polls a second apart from start-up: the fifth opens an
    automatic pour. *)
Definition five_dry_polls : list event :=
  [dry_poll 0; dry_poll 1000; dry_poll 2000; dry_poll 3000; dry_poll 4000].

(** What holding the manual button does to the pour record. *)
Definition held (now : Z) (before : option pour_t) : pour_t :=
  match before with
  | Some p => {| manual := true; start := start p;
                 lockout_start := lockout_start p |}
  | None => {| manual := true; start := now; lockout_start := now |}
  end.

(** A polling interval during an automatic pour [p] in which the probe reads
    wet, the enable input is high, the manual button is released and the pour
    is inside its lockout window. *)
Definition wet_tick (p : pour_t) (hw : pins) : Prop :=
  is_enabled hw = true /\
  is_manual hw = false /\
  THRESHOLD < raw_sense hw /\
  is_ulong (millis hw) /\
  lockout_start p <= millis hw /\
  millis hw - lockout_start p < LOCKOUT_TIME_MS.

(** A polling interval in which the probe reads dry, the enable input is
    high and the manual button is released. *)
Definition dry_tick (hw : pins) : Prop :=
  is_enabled hw = true /\
  is_manual hw = false /\
  raw_sense hw <= THRESHOLD.

(** What the rest of the sketch can observe of the globals: the state
    record and the pour its pointer designates.  The pour object itself is
    not part of it while the pointer is [NULL]. *)
Definition same_view (m1 m2 : memory) : Prop :=
  program_state m1 = program_state m2 /\ active_pour m1 = active_pour m2.

(** What the control code itself reads of the globals: everything in
    [same_view] but the recorded reading, which only the status dump
    shows. *)
Definition same_control (m1 m2 : memory) : Prop :=
  current_pour (program_state m1) = current_pour (program_state m2) /\
  lockout (program_state m1) = lockout (program_state m2) /\
  count (program_state m1) = count (program_state m2) /\
  active_pour m1 = active_pour m2.

(** ** The status dump *)

Section StatusDump.

Import Stdlib.Strings.String Stdlib.Strings.Ascii.
Local Open Scope string_scope.

(** One call on the serial port. *)
Inductive serial_call : Set :=
| Serial_print (s : string)
| Serial_println (s : string).

Definition TAB : ascii := "009"%char.
Definition DQUOTE : ascii := "034"%char.
Definition CR : ascii := "013"%char.
Definition LF : ascii := "010"%char.

(** [Serial.print] of an integer value: its decimal digits, after a minus
    sign when it is negative. *)
Definition decimal (z : Z) : string :=
  DecimalString.NilZero.string_of_int (Z.to_int z).

(** The literal written before each field: a tab, the name in double
    quotes, a colon and a space. *)
Definition key (name : string) : string :=
  String TAB (String DQUOTE (name ++ String DQUOTE ": ")).

(** [print_state], as the calls it makes; [now] is what [millis()] answers
    for the heading. *)
Definition print_state (now : Z) (m : memory) : list serial_call :=
  let state := program_state m in
  [ Serial_print "[@";
    Serial_print (decimal now);
    Serial_println "] ---";
    Serial_println "{";
    Serial_print (key "count");
    Serial_print (decimal (count state));
    Serial_println ",";
    Serial_print (key "lockout");
    Serial_println (if lockout state then "true," else "false,");
    Serial_print (key "last_raw_reading");
    Serial_print (decimal (last_raw_reading state));
    Serial_println ",";
    Serial_print (key "current_pour");
    Serial_println (match current_pour state with
                    | None => "null"
                    | Some _ => "{"
                    end) ]
  ++ match current_pour state with
     | Some p =>
         let pour := load m p in
         [ Serial_print (key "manual");
           Serial_println (if manual pour then "true," else "false,");
           Serial_print (key "start");
           Serial_print (decimal (start pour));
           Serial_println ",";
           Serial_print (key "lockout_start");
           Serial_println (decimal (lockout_start pour));
           Serial_println "  }" ]
     | None => []
     end
  ++ [ Serial_println "}";
       Serial_println " --- " ].

(** The characters a sequence of calls puts on the line; [println] ends with
    carriage return and line feed. *)
Fixpoint serial_text (calls : list serial_call) : string :=
  match calls with
  | [] => ""
  | Serial_print s :: rest => s ++ serial_text rest
  | Serial_println s :: rest => s ++ String CR (String LF (serial_text rest))
  end.

(** The characters of a printed integer. *)
Definition is_numeric (a : ascii) : bool :=
  (Ascii.eqb a "-") || ((48 <=? nat_of_ascii a)%nat && (nat_of_ascii a <=? 57)%nat).

Fixpoint numeric (s : string) : bool :=
  match s with
  | EmptyString => true
  | String a r => is_numeric a && numeric r
  end.

End StatusDump.

(** ** The earlier sketch

    The repository also holds the sketch that [brita-filler.ino] grew out
    of: no [state_t], no lockout, the button and the enable line cached in
    globals by their interrupt handlers, and a debounce depth of 10.  Its
    [int] flags are carried as [Z] with C truth values. *)

Module Simple.

Record globals : Set := mk_globals {
  manual : Z;
  ct : Z;
  enabled : Z;
  isPouring : Z;
  isCurrentPourAuto : Z;
  currentAutoPourStart : Z
}.

(** All six globals start at 0. *)
Definition boot : globals :=
  {| manual := 0; ct := 0; enabled := 0; isPouring := 0;
     isCurrentPourAuto := 0; currentAutoPourStart := 0 |}.

(** An [int] used as a condition, and the [int] a comparison yields. *)
Definition truthy (x : Z) : bool := negb (x =? 0).
Definition of_bool (b : bool) : Z := if b then 1 else 0.

Definition set_manual (v : Z) (g : globals) : globals :=
  {| manual := v; ct := ct g; enabled := enabled g; isPouring := isPouring g;
     isCurrentPourAuto := isCurrentPourAuto g;
     currentAutoPourStart := currentAutoPourStart g |}.

Definition set_ct (v : Z) (g : globals) : globals :=
  {| manual := manual g; ct := v; enabled := enabled g;
     isPouring := isPouring g; isCurrentPourAuto := isCurrentPourAuto g;
     currentAutoPourStart := currentAutoPourStart g |}.

Definition set_enabled (v : Z) (g : globals) : globals :=
  {| manual := manual g; ct := ct g; enabled := v; isPouring := isPouring g;
     isCurrentPourAuto := isCurrentPourAuto g;
     currentAutoPourStart := currentAutoPourStart g |}.

Definition set_isPouring (v : Z) (g : globals) : globals :=
  {| manual := manual g; ct := ct g; enabled := enabled g; isPouring := v;
     isCurrentPourAuto := isCurrentPourAuto g;
     currentAutoPourStart := currentAutoPourStart g |}.

Definition set_isCurrentPourAuto (v : Z) (g : globals) : globals :=
  {| manual := manual g; ct := ct g; enabled := enabled g;
     isPouring := isPouring g; isCurrentPourAuto := v;
     currentAutoPourStart := currentAutoPourStart g |}.

Definition set_currentAutoPourStart (v : Z) (g : globals) : globals :=
  {| manual := manual g; ct := ct g; enabled := enabled g;
     isPouring := isPouring g; isCurrentPourAuto := isCurrentPourAuto g;
     currentAutoPourStart := v |}.

(** [shouldPour]; [now] is what [millis()] answers on the path that reads
    it. *)
Definition shouldPour (now : Z) (currentlyPouring : Z) (g : globals)
  : globals * Z :=
  if negb (truthy (enabled g)) then
    (g |> set_isCurrentPourAuto 0, 0)
  else if truthy (manual g) then
    (g |> set_isCurrentPourAuto 0, 1)
  else if 10 <=? ct g then
    (g |> set_isCurrentPourAuto 1 |> set_currentAutoPourStart now, 1)
  else if truthy currentlyPouring && truthy (isCurrentPourAuto g) then
    let currentTime := now in
    if (currentAutoPourStart g <=? currentTime) &&
       (ulong_sub currentTime (currentAutoPourStart g) <=? 10000)
    then (g, 1)
    else (g |> set_isCurrentPourAuto 0 |> set_currentAutoPourStart 0, 0)
  else (g, of_bool (10 <=? ct g)).

(** [recompute]: the second component is the level written to the valve
    pin. *)
Definition recompute (now : Z) (g : globals) : globals * bool :=
  let (g', r) := shouldPour now (isPouring g) g in
  (g' |> set_isPouring r, truthy r).

Definition disable (now : Z) (g : globals) : globals * bool :=
  recompute now (g |> set_enabled 0).

Definition enable (now : Z) (g : globals) : globals * bool :=
  recompute now (g |> set_enabled 1).

Definition startPour (now : Z) (g : globals) : globals * bool :=
  recompute now (g |> set_manual 1).

Definition stopPour (now : Z) (g : globals) : globals * bool :=
  recompute now (g |> set_manual 0).

(** [determineEnabled] and [determineManual]; [high] tells whether
    [digitalRead] answered [HIGH]. *)
Definition determineEnabled (high : bool) (now : Z) (g : globals)
  : globals * bool :=
  if high then enable now g else disable now g.

Definition determineManual (high : bool) (now : Z) (g : globals)
  : globals * bool :=
  if high then startPour now g else stopPour now g.

(** [loop]: one polling interval on the reading [val] (the printing in
    between leaves the globals alone). *)
Definition loop (val : Z) (now : Z) (g : globals) : globals * bool :=
  let g :=
    if (val <=? 900) && (ct g <? 10) then g |> set_ct (ct g + 1)
    else if 900 <? val then g |> set_ct 0
    else g in
  recompute now g.

(** What makes the sketch run: a change on one of the two pins, or the
    polling interval. *)
Inductive event : Set :=
| ManualPin (high : bool) (now : Z)
| EnablePin (high : bool) (now : Z)
| Poll (val : Z) (now : Z).

Definition step (e : event) (g : globals) : globals * bool :=
  match e with
  | ManualPin high now => determineManual high now g
  | EnablePin high now => determineEnabled high now g
  | Poll val now => loop val now g
  end.

Definition run (es : list event) (g : globals) : globals :=
  fold_left (fun g e => fst (step e g)) es g.

Fixpoint valve_trace (es : list event) (g : globals) : list bool :=
  match es with
  | [] => []
  | e :: es' => snd (step e g) :: valve_trace es' (fst (step e g))
  end.

(** [setup] ends by reading both pins once. *)
Definition setup (manual_high enable_high : bool) (now now' : Z) : globals :=
  run [ManualPin manual_high now; EnablePin enable_high now'] boot.

Definition is_poll (e : event) : Prop :=
  match e with Poll _ _ => True | _ => False end.

Definition flag (x : Z) : Prop := x = 0 \/ x = 1.

(** What every reachable state of the earlier sketch satisfies. *)
Definition invariant (g : globals) : Prop :=
  0 <= ct g <= 10 /\
  flag (manual g) /\ flag (enabled g) /\
  flag (isPouring g) /\ flag (isCurrentPourAuto g) /\
  (isCurrentPourAuto g = 1 -> isPouring g = 1).

End Simple.

(** ** Proof support *)

Ltac split_memory m :=
  let mn := fresh "mn" in
  let st := fresh "st" in
  let ls := fresh "ls" in
  let cp := fresh "cp" in
  let lk := fresh "lk" in
  let ct := fresh "ct" in
  let lr := fresh "lr" in
  destruct m as [[mn st ls] [cp lk ct lr]]; try destruct cp as [[]|].

Ltac split_pins hw :=
  let en := fresh "en" in
  let mb := fresh "mb" in
  let rs := fresh "rs" in
  let now := fresh "now" in
  destruct hw as [en mb rs now].

(** Turn the recorded outcomes of integer tests into arithmetic facts. *)
Ltac bool_arith :=
  repeat match goal with
    | H : (_ <? _) = true |- _ => apply Z.ltb_lt in H
    | H : (_ <? _) = false |- _ => apply Z.ltb_ge in H
    | H : (_ <=? _) = true |- _ => apply Z.leb_le in H
    | H : (_ <=? _) = false |- _ => apply Z.leb_gt in H
    | H : (_ || _) = true |- _ => apply orb_true_iff in H
    | H : (_ || _) = false |- _ => apply orb_false_iff in H; destruct H
    | H : (_ && _) = true |- _ => apply andb_true_iff in H; destruct H
    | H : (_ && _) = false |- _ => apply andb_false_iff in H
    end.

(** Split on every test the code under consideration performs. *)
Ltac branch :=
  repeat match goal with
    | |- context [if ?b then _ else _] => destruct b eqn:?; cbn
    end.

Lemma ulong_sub_small a b : is_ulong a -> is_ulong b -> b <= a ->
  ulong_sub a b = a - b.
Proof.
  unfold is_ulong, ulong_sub. intros Ha Hb Hle.
  apply Z.mod_small. lia.
Qed.

Lemma ulong_sub_self a : ulong_sub a a = 0.
Proof. unfold ulong_sub. now rewrite Z.sub_diag. Qed.

Lemma ulong_sub_range a b : is_ulong (ulong_sub a b).
Proof.
  unfold is_ulong, ulong_sub, ULONG_MODULUS.
  apply Z.mod_pos_bound. reflexivity.
Qed.

(** On in-range timestamps the interval test reads as it is written. *)
Lemma expired_true limit now ref : is_ulong now -> is_ulong ref ->
  expired limit now ref = true <-> now < ref \/ limit <= now - ref.
Proof.
  intros Hn Hr. unfold expired.
  rewrite orb_true_iff, Z.ltb_lt, Z.leb_le.
  destruct (Z.lt_ge_cases now ref) as [Hlt | Hge].
  - split; intros _; left; exact Hlt.
  - rewrite (ulong_sub_small now ref Hn Hr Hge). reflexivity.
Qed.

Lemma expired_false limit now ref : is_ulong now -> is_ulong ref ->
  expired limit now ref = false <-> ref <= now /\ now - ref < limit.
Proof.
  intros Hn Hr.
  rewrite <- not_true_iff_false, (expired_true limit now ref Hn Hr). lia.
Qed.

Lemma expired_wrapped limit now ref : now < ref -> expired limit now ref = true.
Proof.
  intros H. unfold expired. apply Z.ltb_lt in H. now rewrite H.
Qed.

Lemma expired_fresh limit now : 0 < limit -> expired limit now now = false.
Proof.
  intros H. unfold expired. rewrite ulong_sub_self, Z.ltb_irrefl.
  cbn. now apply Z.leb_gt.
Qed.

(** The debouncer leaves everything but its counter and the last reading
    alone. *)
Lemma update_auto_pour_frame hw m :
  current_pour_cell (update_auto_pour hw m) = current_pour_cell m /\
  current_pour (program_state (update_auto_pour hw m))
    = current_pour (program_state m) /\
  lockout (program_state (update_auto_pour hw m)) = lockout (program_state m).
Proof.
  split_memory m; unfold update_auto_pour; cbn; branch; auto.
Qed.

Lemma update_auto_pour_count hw m :
  count (program_state (update_auto_pour hw m)) =
    if (raw_sense hw <=? THRESHOLD) && (count (program_state m) <? CONSECUTIVE)
    then uchar_incr (count (program_state m))
    else if THRESHOLD <? raw_sense hw then 0 else count (program_state m).
Proof.
  split_memory m; unfold update_auto_pour; cbn; branch; reflexivity.
Qed.

Lemma uchar_incr_below c : 0 <= c < CONSECUTIVE -> uchar_incr c = c + 1.
Proof.
  unfold CONSECUTIVE, uchar_incr, UCHAR_MODULUS. intros H.
  apply Z.mod_small. lia.
Qed.

Lemma update_auto_pour_bounded hw m :
  0 <= count (program_state m) <= CONSECUTIVE ->
  0 <= count (program_state (update_auto_pour hw m)) <= CONSECUTIVE.
Proof.
  intros H. rewrite update_auto_pour_count.
  branch; bool_arith; try (unfold CONSECUTIVE in *; lia).
  rewrite uchar_incr_below by lia. lia.
Qed.

(** The state machine either keeps the counter or clears it. *)
Lemma update_state_count hw m :
  count (program_state (update_state hw m)) = count (program_state m) \/
  count (program_state (update_state hw m)) = 0.
Proof.
  split_memory m; split_pins hw; unfold update_state; cbn; branch; auto.
Qed.

Lemma update_state_bounded hw m :
  0 <= count (program_state m) <= CONSECUTIVE ->
  0 <= count (program_state (update_state hw m)) <= CONSECUTIVE.
Proof.
  intros H. destruct (update_state_count hw m) as [-> | ->];
    [exact H | unfold CONSECUTIVE; lia].
Qed.

Lemma step_bounded e m :
  0 <= count (program_state m) <= CONSECUTIVE ->
  0 <= count (program_state (step e m)) <= CONSECUTIVE.
Proof.
  intros H. destruct e as [hw | hw]; cbn.
  - now apply update_state_bounded.
  - now apply update_state_bounded, update_auto_pour_bounded.
Qed.

Lemma run_bounded es : forall m,
  0 <= count (program_state m) <= CONSECUTIVE ->
  0 <= count (program_state (run es m)) <= CONSECUTIVE.
Proof.
  induction es as [| e es IH]; intros m H; cbn.
  - exact H.
  - apply IH, step_bounded, H.
Qed.

(** ** The debouncer *)

(** C5. Debounce saturation and reset: from a counter in [0, CONSECUTIVE],
    [update_auto_pour] adds one when the reading is at or below THRESHOLD and
    the counter is below CONSECUTIVE, clears the counter when the reading is
    above THRESHOLD, and keeps it when the reading is at or below THRESHOLD
    and the counter is at CONSECUTIVE; so the counter stays within
    [0, CONSECUTIVE], also along every run of the control code. *)
Theorem debounce_saturation hw m :
  0 <= count (program_state m) <= CONSECUTIVE ->
  let c := count (program_state m) in
  let c' := count (program_state (update_auto_pour hw m)) in
  (raw_sense hw <= THRESHOLD -> c < CONSECUTIVE -> c' = c + 1) /\
  (THRESHOLD < raw_sense hw -> c' = 0) /\
  (raw_sense hw <= THRESHOLD -> c = CONSECUTIVE -> c' = c) /\
  0 <= c' <= CONSECUTIVE /\
  (forall es, 0 <= count (program_state (run es m)) <= CONSECUTIVE).
Proof.
  intros Hc. cbv zeta.
  assert (Hb := update_auto_pour_bounded hw m Hc).
  rewrite update_auto_pour_count in *.
  repeat split; try apply Hb; try (apply run_bounded, Hc).
  - intros Hr Hlt. apply Z.leb_le in Hr. apply Z.ltb_lt in Hlt as Hlt'.
    rewrite Hr, Hlt'. cbn. apply uchar_incr_below. lia.
  - intros Hr. apply Z.leb_gt in Hr as Hr'. apply Z.ltb_lt in Hr as Hr''.
    now rewrite Hr', Hr''.
  - intros Hr Heq. apply Z.leb_le in Hr as Hr'.
    assert (Hlt : (count (program_state m) <? CONSECUTIVE) = false)
      by (apply Z.ltb_ge; lia).
    assert (Hw : (THRESHOLD <? raw_sense hw) = false) by (apply Z.ltb_ge; lia).
    now rewrite Hr', Hlt, Hw.
Qed.

Lemma debounce_saturation_witness :
  let hw := {| is_enabled := true; is_manual := false;
               raw_sense := 800; millis := 4000 |} in
  let m := with_state (fun s => {| current_pour := None; lockout := false;
                                   count := 4; last_raw_reading := 800 |})
                      boot in
  count (program_state (update_auto_pour hw m)) = 5 /\
  count (program_state (update_auto_pour hw (update_auto_pour hw m))) = 5.
Proof.
  cbv zeta.
  split.
  - refine (proj1 (debounce_saturation _ _ _) _ _);
      cbn; unfold CONSECUTIVE, THRESHOLD; lia.
  - refine (proj1 (proj2 (proj2 (debounce_saturation _ _ _))) _ _);
      cbn; unfold CONSECUTIVE, THRESHOLD; lia.
Defined.

(** ** Lockout and the state invariants *)

Ltac run_update_state hw m :=
  split_memory m; split_pins hw;
  unfold loop, refresh, should_pour, active_pour, update_state; cbn in *.

Lemma update_state_locked hw m :
  lockout (program_state m) = true ->
  is_enabled hw = true ->
  lockout (program_state (update_state hw m)) = true /\
  current_pour (program_state (update_state hw m)) = None /\
  should_pour (update_state hw m) = false.
Proof.
  run_update_state hw m; intros -> ->; cbn; auto.
Qed.

Lemma update_state_disabled hw m :
  is_enabled hw = false ->
  lockout (program_state (update_state hw m)) = false /\
  current_pour (program_state (update_state hw m)) = None /\
  count (program_state (update_state hw m)) = 0 /\
  should_pour (update_state hw m) = false.
Proof.
  run_update_state hw m; intros ->; cbn; auto.
Qed.

(** C2. Lockout recovery: from a state with [lockout] set, an evaluation with
    the enable input high keeps [lockout] set, leaves no pour and writes the
    valve closed, whatever the manual button and the probe read, from the
    interrupt as from the polling loop; an evaluation with the enable input
    low clears [lockout]; and [lockout] is cleared by no other evaluation. *)
Theorem lockout_recovery hw m :
  lockout (program_state m) = true ->
  (is_enabled hw = true ->
     lockout (program_state (update_state hw m)) = true /\
     current_pour (program_state (update_state hw m)) = None /\
     snd (refresh hw m) = false /\
     lockout (program_state (fst (loop hw m))) = true /\
     snd (loop hw m) = false) /\
  (is_enabled hw = false ->
     lockout (program_state (update_state hw m)) = false) /\
  (lockout (program_state (update_state hw m)) = false ->
     is_enabled hw = false).
Proof.
  intros Hl. split; [| split].
  - intros He.
    destruct (update_state_locked hw m Hl He) as (H1 & H2 & H3).
    destruct (update_auto_pour_frame hw m) as (_ & _ & Hf).
    rewrite <- Hf in Hl.
    destruct (update_state_locked hw _ Hl He) as (H4 & _ & H6).
    unfold loop, refresh; cbn. auto.
  - intros He. apply (update_state_disabled hw m He).
  - intros Hc. destruct (is_enabled hw) eqn:He; [| reflexivity].
    destruct (update_state_locked hw m Hl He) as (H1 & _). congruence.
Qed.

Lemma lockout_recovery_witness :
  let m := boot |> set_lockout true in
  let hw := {| is_enabled := true; is_manual := true;
               raw_sense := 800; millis := 31000 |} in
  lockout (program_state m) = true /\
  snd (refresh hw m) = false /\
  lockout (program_state (update_state hw m)) = true.
Proof.
  cbv zeta.
  pose proof (lockout_recovery
                {| is_enabled := true; is_manual := true;
                   raw_sense := 800; millis := 31000 |}
                (boot |> set_lockout true) eq_refl) as (H & _).
  specialize (H eq_refl).
  split; [reflexivity | split; apply H].
Defined.

Lemma update_state_exclusive hw m :
  lockout (program_state (update_state hw m)) = true ->
  current_pour (program_state (update_state hw m)) = None.
Proof.
  run_update_state hw m; destruct en, lk; cbn; branch; congruence.
Qed.

(** C4. State invariants: after every call of [update_state], [lockout] set
    implies that no pour is recorded, and a recorded pour implies that
    [lockout] is clear and that the enable input was high in that call. *)
Theorem state_invariants hw m :
  (lockout (program_state (update_state hw m)) = true ->
     current_pour (program_state (update_state hw m)) = None) /\
  (current_pour (program_state (update_state hw m)) <> None ->
     lockout (program_state (update_state hw m)) = false /\
     is_enabled hw = true).
Proof.
  split.
  - apply update_state_exclusive.
  - intros Hpour.
    destruct (lockout (program_state (update_state hw m))) eqn:Hlock.
    { elim Hpour. now apply update_state_exclusive. }
    split; [reflexivity |].
    destruct (is_enabled hw) eqn:He; [reflexivity |].
    destruct (update_state_disabled hw m He) as (_ & Hnone & _).
    contradiction.
Qed.

(** The state half of the invariants holds at start-up and in every state
    the sketch reaches afterwards. *)
Lemma step_exclusive e m : lockout_excludes_pour (step e m).
Proof.
  destruct e as [hw | hw]; cbn.
  - exact (update_state_exclusive hw m).
  - exact (update_state_exclusive hw (update_auto_pour hw m)).
Qed.

Lemma run_exclusive es : forall m,
  lockout_excludes_pour m -> lockout_excludes_pour (run es m).
Proof.
  induction es as [| e es IH]; intros m H; cbn; [exact H |].
  apply IH, step_exclusive.
Qed.

Lemma boot_exclusive es : lockout_excludes_pour (run es boot).
Proof. apply run_exclusive. intros H. reflexivity. Qed.

(** Finish a branch equation: name the pour, turn the arithmetic side
    conditions back into the tests the code performs, and evaluate. *)
Ltac settle :=
  repeat match goal with
    | H : Some _ = Some _ |- _ => injection H as <-
    | H : CONSECUTIVE <= _ |- _ => apply Z.leb_le in H
    | H : _ < CONSECUTIVE |- _ => apply Z.leb_gt in H
    end;
  cbn in *; subst; cbn;
  repeat match goal with
    | H : ?b = true |- context [?b] => rewrite H
    | H : ?b = false |- context [?b] => rewrite H
    end;
  try reflexivity.

(** ** The branches of [update_state]

    One equation per path through the function.  The first is the guard;
    the others are taken with the enable input high and [lockout] clear. *)

Lemma update_state_guard hw m :
  negb (is_enabled hw) || lockout (program_state m) = true ->
  update_state hw m =
    {| current_pour_cell := current_pour_cell m;
       program_state :=
         {| current_pour := None;
            lockout := is_enabled hw && lockout (program_state m);
            count := 0;
            last_raw_reading := last_raw_reading (program_state m) |} |}.
Proof.
  run_update_state hw m; destruct en, lk; cbn; intros H;
    try discriminate H; reflexivity.
Qed.

Section PastGuard.

Variables (hw : pins) (m : memory).
Hypothesis Henabled : is_enabled hw = true.
Hypothesis Hlockout : lockout (program_state m) = false.

Let now := millis hw.
Let lrr := last_raw_reading (program_state m).
Let cnt := count (program_state m).

Section Pouring.

Variable p : pour_t.
Hypothesis Hpour : active_pour m = Some p.

Lemma update_state_timeout :
  expired LOCKOUT_TIME_MS now (lockout_start p) = true ->
  update_state hw m =
    {| current_pour_cell := closed_cell;
       program_state := {| current_pour := None; lockout := true;
                           count := 0; last_raw_reading := lrr |} |}.
Proof.
  subst now lrr cnt. revert Henabled Hlockout Hpour.
  run_update_state hw m; intros; try discriminate.
  settle.
Qed.

Hypothesis Hintime : expired LOCKOUT_TIME_MS now (lockout_start p) = false.

Lemma update_state_manual_held :
  is_manual hw = true ->
  update_state hw m =
    {| current_pour_cell :=
         {| manual := true; start := start p;
            lockout_start := lockout_start p |};
       program_state :=
         {| current_pour := Some addr_current_pour; lockout := false;
            count := 0; last_raw_reading := lrr |} |}.
Proof.
  subst now lrr cnt. revert Henabled Hlockout Hpour Hintime.
  run_update_state hw m; intros; try discriminate.
  settle.
Qed.

Hypothesis Hreleased : is_manual hw = false.

Lemma update_state_rearm :
  CONSECUTIVE <= cnt ->
  update_state hw m =
    {| current_pour_cell :=
         {| manual := false; start := now;
            lockout_start := lockout_start p |};
       program_state := program_state m |}.
Proof.
  subst now lrr cnt. revert Henabled Hlockout Hpour Hintime Hreleased.
  run_update_state hw m; intros; try discriminate.
  settle.
Qed.

Hypothesis Hwet : cnt < CONSECUTIVE.

Lemma update_state_release :
  manual p = true ->
  update_state hw m =
    {| current_pour_cell := closed_cell;
       program_state := {| current_pour := None; lockout := false;
                           count := cnt; last_raw_reading := lrr |} |}.
Proof.
  subst now lrr cnt. revert Henabled Hlockout Hpour Hintime Hreleased Hwet.
  run_update_state hw m; intros; try discriminate.
  settle.
Qed.

Hypothesis Hauto : manual p = false.

Lemma update_state_hysteresis_over :
  expired HYSTERESIS_TIME_MS now (start p) = true ->
  update_state hw m =
    {| current_pour_cell := closed_cell;
       program_state := {| current_pour := None; lockout := false;
                           count := cnt; last_raw_reading := lrr |} |}.
Proof.
  subst now lrr cnt.
  revert Henabled Hlockout Hpour Hintime Hreleased Hwet Hauto.
  run_update_state hw m; intros; try discriminate.
  settle.
Qed.

Lemma update_state_hysteresis_hold :
  expired HYSTERESIS_TIME_MS now (start p) = false ->
  update_state hw m = m.
Proof.
  subst now lrr cnt.
  revert Henabled Hlockout Hpour Hintime Hreleased Hwet Hauto.
  run_update_state hw m; intros; try discriminate.
  settle.
Qed.

End Pouring.

Section Idle.

Hypothesis Hidle : active_pour m = None.

Lemma update_state_manual_start :
  is_manual hw = true ->
  update_state hw m =
    {| current_pour_cell :=
         {| manual := true; start := now; lockout_start := now |};
       program_state :=
         {| current_pour := Some addr_current_pour; lockout := false;
            count := 0; last_raw_reading := lrr |} |}.
Proof.
  subst now lrr cnt. revert Henabled Hlockout Hidle.
  run_update_state hw m; intros; try discriminate.
  settle.
Qed.

Hypothesis Hreleased : is_manual hw = false.

Lemma update_state_auto_start :
  CONSECUTIVE <= cnt ->
  update_state hw m =
    {| current_pour_cell :=
         {| manual := false; start := now; lockout_start := now |};
       program_state :=
         {| current_pour := Some addr_current_pour; lockout := false;
            count := cnt; last_raw_reading := lrr |} |}.
Proof.
  subst now lrr cnt. revert Henabled Hlockout Hidle Hreleased.
  run_update_state hw m; intros; try discriminate.
  settle.
Qed.

Lemma update_state_idle :
  cnt < CONSECUTIVE -> update_state hw m = m.
Proof.
  subst now lrr cnt. revert Henabled Hlockout Hidle Hreleased.
  run_update_state hw m; intros; try discriminate.
  settle.
Qed.

End Idle.

End PastGuard.

(** ** Evaluations during which the valve stays open *)

Lemma update_auto_pour_active hw m :
  active_pour (update_auto_pour hw m) = active_pour m.
Proof.
  split_memory m; unfold update_auto_pour, active_pour; cbn; branch;
    reflexivity.
Qed.

Lemma should_pour_active m :
  should_pour m = true <-> exists p, active_pour m = Some p.
Proof.
  split_memory m; unfold should_pour, active_pour; cbn; split.
  - eauto.
  - reflexivity.
  - discriminate.
  - intros [p H]. discriminate H.
Qed.

(** Writing through the pointer of an active pour. *)
Lemma active_pour_cell_update m p c :
  active_pour m = Some p ->
  active_pour {| current_pour_cell := c; program_state := program_state m |}
    = Some c.
Proof.
  split_memory m; unfold active_pour; cbn; [reflexivity | discriminate].
Qed.

Lemma should_pour_idle m : should_pour m = false <-> active_pour m = None.
Proof.
  split_memory m; unfold should_pour, active_pour; cbn; split;
    congruence.
Qed.

(** A pour that an evaluation leaves open was within its lockout window at
    that evaluation, and keeps the [lockout_start] it had. *)
Lemma update_state_stays_open hw m p :
  active_pour m = Some p ->
  should_pour (update_state hw m) = true ->
  expired LOCKOUT_TIME_MS (millis hw) (lockout_start p) = false /\
  is_enabled hw = true /\
  exists p', active_pour (update_state hw m) = Some p' /\
             lockout_start p' = lockout_start p.
Proof.
  run_update_state hw m; intros Hp; try discriminate Hp.
  injection Hp as <-. cbn.
  destruct en, lk; cbn; try discriminate.
  destruct (expired LOCKOUT_TIME_MS now ls); cbn; try discriminate.
  destruct mb; cbn; [repeat split; eauto |].
  destruct (CONSECUTIVE <=? ct); cbn; [repeat split; eauto |].
  destruct mn; cbn; try discriminate.
  destruct (expired HYSTERESIS_TIME_MS now st); cbn; try discriminate.
  repeat split; eauto.
Qed.

Lemma step_stays_open e m p :
  active_pour m = Some p ->
  should_pour (step e m) = true ->
  expired LOCKOUT_TIME_MS (millis (pins_of e)) (lockout_start p) = false /\
  is_enabled (pins_of e) = true /\
  exists p', active_pour (step e m) = Some p' /\
             lockout_start p' = lockout_start p.
Proof.
  destruct e as [hw | hw]; cbn; intros Hp.
  - now apply update_state_stays_open.
  - apply update_state_stays_open. now rewrite update_auto_pour_active.
Qed.

(** The same along a run whose every evaluation writes the valve open. *)
Lemma run_stays_open es : forall m p,
  active_pour m = Some p ->
  forallb (fun v => v) (valve_trace es m) = true ->
  Forall (fun e => expired LOCKOUT_TIME_MS (millis (pins_of e))
                     (lockout_start p) = false) es /\
  exists p', active_pour (run es m) = Some p' /\
             lockout_start p' = lockout_start p.
Proof.
  induction es as [| e es IH]; intros m p Hp Hopen; cbn in *.
  - split; [constructor | eauto].
  - apply andb_true_iff in Hopen as [Hfirst Hrest].
    destruct (step_stays_open e m p Hp Hfirst) as (Hin & _ & p1 & Hp1 & Hls).
    destruct (IH _ _ Hp1 Hrest) as (Hall & p2 & Hp2 & Hls2).
    rewrite Hls in *. split.
    + constructor; assumption.
    + exists p2. split; [exact Hp2 | congruence].
Qed.

(** An evaluation that finds a pour past its lockout window closes it. *)
Lemma update_state_force_close hw m p :
  active_pour m = Some p ->
  expired LOCKOUT_TIME_MS (millis hw) (lockout_start p) = true ->
  active_pour (update_state hw m) = None /\
  should_pour (update_state hw m) = false /\
  count (program_state (update_state hw m)) = 0 /\
  lockout (program_state (update_state hw m)) = is_enabled hw.
Proof.
  intros Hp Hx.
  destruct (negb (is_enabled hw) || lockout (program_state m)) eqn:Hg.
  - rewrite (update_state_guard hw m Hg). unfold active_pour, should_pour; cbn.
    repeat split. destruct (is_enabled hw), (lockout (program_state m));
      try reflexivity; discriminate Hg.
  - apply orb_false_iff in Hg as [He Hl]. apply negb_false_iff in He.
    rewrite (update_state_timeout hw m He Hl p Hp Hx).
    unfold active_pour, should_pour; cbn. rewrite He. auto.
Qed.

Lemma step_force_close e m p :
  active_pour m = Some p ->
  expired LOCKOUT_TIME_MS (millis (pins_of e)) (lockout_start p) = true ->
  active_pour (step e m) = None /\
  should_pour (step e m) = false /\
  count (program_state (step e m)) = 0 /\
  lockout (program_state (step e m)) = is_enabled (pins_of e).
Proof.
  destruct e as [hw | hw]; cbn; intros Hp Hx.
  - now apply (update_state_force_close hw m p).
  - apply (update_state_force_close hw _ p); [| exact Hx].
    now rewrite update_auto_pour_active.
Qed.

(** ** Reachable states

    Timestamps and counter stay within their C types along every run, which
    is what the range side conditions of the properties below rely on; and
    after every evaluation a recorded pour is inside its lockout window. *)

Lemma is_ulong_0 : is_ulong 0.
Proof. unfold is_ulong, ULONG_MODULUS. lia. Qed.

Lemma is_uchar_0 : is_uchar 0.
Proof. unfold is_uchar, UCHAR_MODULUS. lia. Qed.

Lemma boot_wf : wf_memory boot.
Proof. repeat split; cbn; try apply is_ulong_0; apply is_uchar_0. Qed.

Lemma update_auto_pour_wf hw m :
  wf_memory m -> wf_memory (update_auto_pour hw m).
Proof.
  unfold wf_memory. intros (Hs & Hl & Hc).
  destruct (update_auto_pour_frame hw m) as (-> & _ & _).
  repeat split; try apply Hs; try apply Hl;
    rewrite update_auto_pour_count; branch;
    try apply Hc; try apply is_uchar_0;
    unfold uchar_incr, UCHAR_MODULUS; apply Z.mod_pos_bound; reflexivity.
Qed.

Lemma update_state_wf hw m :
  is_ulong (millis hw) -> wf_memory m -> wf_memory (update_state hw m).
Proof.
  unfold wf_memory.
  run_update_state hw m; intros Hnow (Hs & Hl & Hc);
    destruct en, lk; cbn; branch;
    repeat split; try apply Hs; try apply Hl; try apply Hc; try apply Hnow;
    try apply is_ulong_0; apply is_uchar_0.
Qed.

Lemma step_wf e m : wf_event e -> wf_memory m -> wf_memory (step e m).
Proof.
  destruct e as [hw | hw]; unfold wf_event; cbn; intros Hnow Hm.
  - now apply update_state_wf.
  - now apply update_state_wf, update_auto_pour_wf.
Qed.

Lemma run_wf es : forall m,
  Forall wf_event es -> wf_memory m -> wf_memory (run es m).
Proof.
  induction es as [| e es IH]; intros m Hes Hm; cbn; [exact Hm |].
  inversion Hes; subst. apply IH; [assumption |]. now apply step_wf.
Qed.

Lemma active_pour_wf m p :
  wf_memory m -> active_pour m = Some p ->
  is_ulong (start p) /\ is_ulong (lockout_start p).
Proof.
  unfold wf_memory. split_memory m; unfold active_pour; cbn;
    intros (Hs & Hl & _) [= <-]. auto.
Qed.

(** A pour that an evaluation creates carries the time of that evaluation. *)
Lemma update_state_creates hw m p' :
  active_pour m = None ->
  active_pour (update_state hw m) = Some p' ->
  start p' = millis hw /\ lockout_start p' = millis hw.
Proof.
  run_update_state hw m; try discriminate. intros _.
  destruct en, lk; cbn; try discriminate.
  destruct mb; cbn; [intros [= <-]; auto |].
  destruct (CONSECUTIVE <=? ct); cbn; [intros [= <-]; auto |].
  discriminate.
Qed.

Lemma update_state_within_window hw m p' :
  active_pour (update_state hw m) = Some p' ->
  expired LOCKOUT_TIME_MS (millis hw) (lockout_start p') = false.
Proof.
  intros Hp'. destruct (active_pour m) as [p |] eqn:Hp.
  - assert (Ho : should_pour (update_state hw m) = true)
      by (apply should_pour_active; eauto).
    destruct (update_state_stays_open hw m p Hp Ho) as (Hin & _ & q & Hq & Hls).
    assert (q = p') by congruence. subst q. now rewrite Hls.
  - destruct (update_state_creates hw m p' Hp Hp') as (_ & ->).
    apply expired_fresh. reflexivity.
Qed.

Lemma reachable_within_window es e p :
  Forall wf_event (es ++ [e]) ->
  active_pour (run (es ++ [e]) boot) = Some p ->
  lockout_start p <= millis (pins_of e) /\
  millis (pins_of e) - lockout_start p < LOCKOUT_TIME_MS.
Proof.
  intros Hes Hp.
  assert (Hwf : wf_memory (run (es ++ [e]) boot))
    by (apply run_wf; [exact Hes | exact boot_wf]).
  destruct (active_pour_wf _ _ Hwf Hp) as (_ & Hls).
  apply Forall_app in Hes as [_ He]. inversion He as [| ? ? Hnow _]; subst.
  apply expired_false; try assumption.
  unfold run in Hp. rewrite fold_left_app in Hp. cbn in Hp.
  destruct e as [hw | hw]; cbn in *; now apply update_state_within_window in Hp.
Qed.

(** ** The lockout ceiling *)

(** C1, as stated, fails: a manual pour started at time 0 is evaluated at
    time 30000 with the enable input low.  The lockout window has elapsed,
    the pour is cleared and the valve closed, yet [lockout] is not set. *)
Lemma no_flood_disabled_counterexample :
  let m := run [press_at_boot] boot in
  let hw := {| is_enabled := false; is_manual := true;
               raw_sense := 0; millis := 30000 |} in
  active_pour m =
    Some {| manual := true; start := 0; lockout_start := 0 |} /\
  LOCKOUT_TIME_MS <= millis hw - 0 /\
  active_pour (update_state hw m) = None /\
  lockout (program_state (update_state hw m)) = false.
Proof.
  cbv zeta. repeat split. unfold LOCKOUT_TIME_MS. cbn. lia.
Qed.

(** C1 (amended). No-flood guarantee: take a state with an active pour and
    let the control code run any number of times with the valve written open
    each time, through whatever manual and automatic transitions.  If the
    next evaluation happens at a time [now] with [now < lockout_start] or
    [now - lockout_start >= LOCKOUT_TIME_MS], for the [lockout_start] the
    pour had at the beginning, then that evaluation clears the pour, writes
    the valve closed and resets the debounce counter to 0; it sets [lockout]
    when the enable input is high and clears it when the enable input is
    low. *)
Theorem no_flood es e m p :
  is_ulong (millis (pins_of e)) ->
  is_ulong (lockout_start p) ->
  active_pour m = Some p ->
  forallb (fun v => v) (valve_trace es m) = true ->
  millis (pins_of e) < lockout_start p \/
    LOCKOUT_TIME_MS <= millis (pins_of e) - lockout_start p ->
  let m' := step e (run es m) in
  active_pour m' = None /\
  should_pour m' = false /\
  count (program_state m') = 0 /\
  (is_enabled (pins_of e) = true -> lockout (program_state m') = true) /\
  (is_enabled (pins_of e) = false -> lockout (program_state m') = false).
Proof.
  intros Hnow Hls Hp Hopen Hlate m'. subst m'.
  destruct (run_stays_open es m p Hp Hopen) as (_ & p' & Hp' & Heq).
  apply (expired_true LOCKOUT_TIME_MS _ _ Hnow Hls) in Hlate.
  rewrite <- Heq in Hlate.
  destruct (step_force_close e _ p' Hp' Hlate) as (H1 & H2 & H3 & H4).
  repeat split; try assumption; intros He; congruence.
Qed.

Lemma no_flood_witness :
  let hold t := Interrupt {| is_enabled := true; is_manual := true;
                             raw_sense := 0; millis := t |} in
  let release t := Poll {| is_enabled := true; is_manual := false;
                           raw_sense := 800; millis := t |} in
  let m := run [press_at_boot] boot in
  let es := [hold 1000; hold 2000] in
  active_pour (run es m)
    = Some {| manual := true; start := 0; lockout_start := 0 |} /\
  should_pour (step (hold 30000) (run es m)) = false /\
  lockout (program_state (step (hold 30000) (run es m))) = true.
Proof.
  cbv zeta. split; [reflexivity |].
  pose proof (no_flood
    [Interrupt {| is_enabled := true; is_manual := true;
                  raw_sense := 0; millis := 1000 |};
     Interrupt {| is_enabled := true; is_manual := true;
                  raw_sense := 0; millis := 2000 |}]
    (Interrupt {| is_enabled := true; is_manual := true;
                  raw_sense := 0; millis := 30000 |})
    (run [press_at_boot] boot)
    {| manual := true; start := 0; lockout_start := 0 |}) as H.
  cbn in H.
  assert (H30 : is_ulong 30000) by (unfold is_ulong, ULONG_MODULUS; lia).
  assert (H0 : is_ulong 0) by (unfold is_ulong, ULONG_MODULUS; lia).
  specialize (H H30 H0 eq_refl eq_refl).
  assert (Hlate : 30000 < 0 \/ LOCKOUT_TIME_MS <= 30000 - 0)
    by (right; unfold LOCKOUT_TIME_MS; lia).
  destruct (H Hlate) as (_ & Hclosed & _ & Hlock & _).
  split; [exact Hclosed | exact (Hlock eq_refl)].
Defined.

(** ** [lockout_start] is fixed for the life of a pour *)

(** C9. [lockout_start] immutability: an evaluation of [update_state] that
    finds a pour active and leaves a pour active leaves its [lockout_start]
    unchanged, so that it is the same after any number of consecutive
    evaluations that keep the valve open; a pour left active by an evaluation
    that found none was created by it, with [lockout_start] the time of that
    evaluation. *)
Theorem lockout_start_immutable hw m p' :
  active_pour (update_state hw m) = Some p' ->
  (forall p, active_pour m = Some p ->
     lockout_start p' = lockout_start p /\
     forall es, forallb (fun v => v) (valve_trace es m) = true ->
       exists q, active_pour (run es m) = Some q /\
                 lockout_start q = lockout_start p) /\
  (active_pour m = None -> lockout_start p' = millis hw).
Proof.
  intros Hp'. split.
  - intros p Hp. split.
    + assert (Ho : should_pour (update_state hw m) = true)
        by (apply should_pour_active; eauto).
      destruct (update_state_stays_open hw m p Hp Ho) as (_ & _ & q & Hq & Hls).
      congruence.
    + intros es Hopen. apply (run_stays_open es m p Hp Hopen).
  - intros Hidle. apply (update_state_creates hw m p' Hidle Hp').
Qed.

Lemma lockout_start_immutable_witness :
  let m := run [press_at_boot] boot in
  let hw := {| is_enabled := true; is_manual := false;
               raw_sense := 800; millis := 7000 |} in
  let m5 := set_count 5 m in
  active_pour (update_state hw m5)
    = Some {| manual := false; start := 7000; lockout_start := 0 |} /\
  lockout_start {| manual := false; start := 7000; lockout_start := 0 |}
    = lockout_start {| manual := true; start := 0; lockout_start := 0 |}.
Proof.
  cbv zeta. split; [reflexivity |].
  refine (proj1 (proj1 (lockout_start_immutable
    {| is_enabled := true; is_manual := false;
       raw_sense := 800; millis := 7000 |}
    (set_count 5 (run [press_at_boot] boot)) _ eq_refl) _ eq_refl)).
Defined.

(** ** Stopping a pour and the debounce counter *)

(** C3, as stated, fails on the two stops that come from the probe side.
    Releasing the manual button one dry poll after pressing it stops the pour
    with the counter at 1; an automatic pour whose hysteresis runs out on the
    third dry reading after a wet one stops with the counter at 3. *)
Lemma debounce_reset_counterexample :
  let released := {| is_enabled := true; is_manual := false;
                     raw_sense := 800; millis := 1000 |} in
  let m := update_auto_pour released (run [press_at_boot] boot) in
  let late := {| is_enabled := true; is_manual := false;
                 raw_sense := 800; millis := 14000 |} in
  let a := update_auto_pour late
             (run (five_dry_polls ++ [wet_poll 5000; dry_poll 12000;
                                      dry_poll 13000]) boot) in
  (should_pour m = true /\
   should_pour (update_state released m) = false /\
   count (program_state (update_state released m)) = 1) /\
  (active_pour a
     = Some {| manual := false; start := 4000; lockout_start := 4000 |} /\
   should_pour (update_state late a) = false /\
   count (program_state (update_state late a)) = 3).
Proof.
  cbv zeta. repeat split.
Qed.

(** C3 (amended). When an evaluation of [update_state] finds a pour active
    and leaves none: if the enable input is low, or [lockout] was set, or the
    lockout test of the pour fires, the debounce counter is 0 afterwards;
    otherwise the manual button is released, the pour was manual or its
    hysteresis test fired, and the counter keeps the value it had, which is
    below CONSECUTIVE. *)
Theorem debounce_reset_on_stop hw m p :
  active_pour m = Some p ->
  active_pour (update_state hw m) = None ->
  let guard := negb (is_enabled hw) || lockout (program_state m) in
  let timeout := expired LOCKOUT_TIME_MS (millis hw) (lockout_start p) in
  (guard || timeout = true ->
     count (program_state (update_state hw m)) = 0) /\
  (guard || timeout = false ->
     is_manual hw = false /\
     (manual p = true \/
      expired HYSTERESIS_TIME_MS (millis hw) (start p) = true) /\
     count (program_state (update_state hw m)) = count (program_state m) /\
     count (program_state m) < CONSECUTIVE).
Proof.
  intros Hp Hstop guard timeout. subst guard timeout. split.
  - intros Hc. apply orb_true_iff in Hc as [Hg | Hx].
    + now rewrite (update_state_guard hw m Hg).
    + apply (update_state_force_close hw m p Hp Hx).
  - intros Hc. apply orb_false_iff in Hc as [Hg Hx].
    apply orb_false_iff in Hg as [He Hl]. apply negb_false_iff in He.
    destruct (is_manual hw) eqn:Hm.
    { rewrite (update_state_manual_held hw m He Hl p Hp Hx Hm) in Hstop.
      discriminate Hstop. }
    destruct (Z.le_gt_cases CONSECUTIVE (count (program_state m)))
      as [Hsat | Hwet].
    { rewrite (update_state_rearm hw m He Hl p Hp Hx Hm Hsat) in Hstop.
      revert Hstop Hp. split_memory m; discriminate. }
    split; [reflexivity |].
    destruct (manual p) eqn:Hman.
    { rewrite (update_state_release hw m He Hl p Hp Hx Hm Hwet Hman).
      cbn. auto. }
    destruct (expired HYSTERESIS_TIME_MS (millis hw) (start p)) eqn:Hh.
    { rewrite (update_state_hysteresis_over hw m He Hl p Hp Hx Hm Hwet Hman Hh).
      cbn. auto. }
    rewrite (update_state_hysteresis_hold hw m He Hl p Hp Hx Hm Hwet Hman Hh)
      in Hstop.
    congruence.
Qed.

Lemma debounce_reset_on_stop_witness :
  let hw := {| is_enabled := false; is_manual := true;
               raw_sense := 800; millis := 500 |} in
  let m := set_count 4 (run [press_at_boot] boot) in
  count (program_state (update_state hw m)) = 0.
Proof.
  cbv zeta.
  refine (proj1 (debounce_reset_on_stop
    {| is_enabled := false; is_manual := true;
       raw_sense := 800; millis := 500 |}
    (set_count 4 (run [press_at_boot] boot))
    {| manual := true; start := 0; lockout_start := 0 |}
    eq_refl eq_refl) eq_refl).
Defined.

(** ** Manual override *)

Lemma update_state_held hw m :
  is_enabled hw = true ->
  lockout (program_state m) = false ->
  (forall p, active_pour m = Some p ->
     expired LOCKOUT_TIME_MS (millis hw) (lockout_start p) = false) ->
  is_manual hw = true ->
  should_pour (update_state hw m) = true /\
  count (program_state (update_state hw m)) = 0 /\
  active_pour (update_state hw m) = Some (held (millis hw) (active_pour m)).
Proof.
  intros He Hl Hin Hm. destruct (active_pour m) as [p |] eqn:Hp.
  - rewrite (update_state_manual_held hw m He Hl p Hp (Hin p eq_refl) Hm).
    repeat split.
  - rewrite (update_state_manual_start hw m He Hl Hp Hm). repeat split.
Qed.

(** C7. Manual priority: with the enable input high, [lockout] clear and no
    active pour outside its lockout window, an evaluation with the manual
    button held writes the valve open and resets the debounce counter to 0,
    whatever the counter and the probe reading are, from the interrupt as
    from the polling loop.  The pour it leaves is manual; it has
    [start = lockout_start = now] if none was active, and the timestamps of
    the active pour otherwise. *)
Theorem manual_priority hw m :
  is_enabled hw = true ->
  lockout (program_state m) = false ->
  is_ulong (millis hw) ->
  (forall p, active_pour m = Some p ->
     is_ulong (lockout_start p) /\
     lockout_start p <= millis hw /\
     millis hw - lockout_start p < LOCKOUT_TIME_MS) ->
  is_manual hw = true ->
  (snd (refresh hw m) = true /\
   count (program_state (update_state hw m)) = 0 /\
   active_pour (update_state hw m) = Some (held (millis hw) (active_pour m))) /\
  (snd (loop hw m) = true /\
   count (program_state (fst (loop hw m))) = 0 /\
   active_pour (fst (loop hw m)) = Some (held (millis hw) (active_pour m))).
Proof.
  intros He Hl Hnow Hwin Hm.
  assert (Hin : forall p, active_pour m = Some p ->
            expired LOCKOUT_TIME_MS (millis hw) (lockout_start p) = false).
  { intros p Hp. destruct (Hwin p Hp) as (Hls & Hle & Hlt).
    apply expired_false; auto. }
  split.
  - apply (update_state_held hw m He Hl Hin Hm).
  - unfold loop, refresh; cbn.
    destruct (update_auto_pour_frame hw m) as (_ & _ & Hf).
    rewrite <- (update_auto_pour_active hw m).
    apply update_state_held; auto.
    + congruence.
    + rewrite update_auto_pour_active. exact Hin.
Qed.

Lemma manual_priority_witness :
  let hw := {| is_enabled := true; is_manual := true;
               raw_sense := 950; millis := 6000 |} in
  let m := run five_dry_polls boot in
  active_pour m
    = Some {| manual := false; start := 4000; lockout_start := 4000 |} /\
  snd (loop hw m) = true /\
  active_pour (fst (loop hw m))
    = Some {| manual := true; start := 4000; lockout_start := 4000 |}.
Proof.
  cbv zeta. split; [reflexivity |].
  assert (H : let hw := {| is_enabled := true; is_manual := true;
                           raw_sense := 950; millis := 6000 |} in
              let m := run five_dry_polls boot in
              snd (loop hw m) = true /\
              count (program_state (fst (loop hw m))) = 0 /\
              active_pour (fst (loop hw m))
                = Some (held (millis hw) (active_pour m))).
  { cbv zeta. apply manual_priority.
    - reflexivity.
    - reflexivity.
    - unfold is_ulong, ULONG_MODULUS; cbn; lia.
    - intros p [= <-]. unfold is_ulong, ULONG_MODULUS, LOCKOUT_TIME_MS; cbn.
      lia.
    - reflexivity. }
  cbv zeta in H. destruct H as (H1 & _ & H3). split; [exact H1 | exact H3].
Defined.

(** ** Clock wrap-around *)

(** C8. Clock-wraparound fail-safe: both interval tests of [update_state]
    answer "expired" when [now] is below their reference.  An evaluation that
    reaches the lockout test with [now < lockout_start] clears the pour,
    closes the valve and sets [lockout]; an evaluation of an automatic pour
    with the button released and the counter below CONSECUTIVE, at
    [now < start], leaves no pour and closes the valve. *)
Theorem wraparound_fail_safe hw m p :
  active_pour m = Some p ->
  (millis hw < lockout_start p ->
     expired LOCKOUT_TIME_MS (millis hw) (lockout_start p) = true /\
     (is_enabled hw = true ->
        active_pour (update_state hw m) = None /\
        snd (refresh hw m) = false /\
        lockout (program_state (update_state hw m)) = true)) /\
  (millis hw < start p ->
     expired HYSTERESIS_TIME_MS (millis hw) (start p) = true /\
     (manual p = false -> is_manual hw = false ->
      count (program_state m) < CONSECUTIVE ->
        active_pour (update_state hw m) = None /\
        snd (refresh hw m) = false)).
Proof.
  intros Hp. split.
  - intros Hlt. pose proof (expired_wrapped LOCKOUT_TIME_MS _ _ Hlt) as Hx.
    split; [exact Hx |]. intros He.
    destruct (update_state_force_close hw m p Hp Hx) as (H1 & H2 & _ & H4).
    unfold refresh; cbn. rewrite He in H4. auto.
  - intros Hlt. pose proof (expired_wrapped HYSTERESIS_TIME_MS _ _ Hlt) as Hh.
    split; [exact Hh |]. intros Hauto Hm Hwet. unfold refresh; cbn.
    destruct (negb (is_enabled hw) || lockout (program_state m)) eqn:Hg.
    { rewrite (update_state_guard hw m Hg). split; reflexivity. }
    apply orb_false_iff in Hg as [He Hl]. apply negb_false_iff in He.
    destruct (expired LOCKOUT_TIME_MS (millis hw) (lockout_start p)) eqn:Hx.
    { destruct (update_state_force_close hw m p Hp Hx) as (H1 & H2 & _). auto. }
    rewrite (update_state_hysteresis_over hw m He Hl p Hp Hx Hm Hwet Hauto Hh).
    split; reflexivity.
Qed.

Lemma wraparound_fail_safe_witness :
  let late := {| is_enabled := true; is_manual := false;
                 raw_sense := 800; millis := 4294967000 |} in
  let m := run [Poll late] (set_count 5 boot) in
  let wrapped := {| is_enabled := true; is_manual := true;
                    raw_sense := 800; millis := 200 |} in
  active_pour m = Some {| manual := false; start := 4294967000;
                          lockout_start := 4294967000 |} /\
  snd (refresh wrapped m) = false /\
  lockout (program_state (update_state wrapped m)) = true.
Proof.
  cbv zeta. split; [reflexivity |].
  pose proof (wraparound_fail_safe
    {| is_enabled := true; is_manual := true;
       raw_sense := 800; millis := 200 |}
    (run [Poll {| is_enabled := true; is_manual := false;
                  raw_sense := 800; millis := 4294967000 |}]
         (set_count 5 boot))
    {| manual := false; start := 4294967000; lockout_start := 4294967000 |}
    eq_refl) as (H & _).
  assert (Hlt : 200 < 4294967000) by lia.
  destruct (H Hlt) as (_ & Hc). destruct (Hc eq_refl) as (_ & H2 & H3).
  split; assumption.
Defined.

(** ** Starting an automatic pour *)

Lemma update_auto_pour_dry_saturated hw m :
  raw_sense hw <= THRESHOLD ->
  CONSECUTIVE <= count (program_state m) ->
  count (program_state (update_auto_pour hw m)) = count (program_state m).
Proof.
  intros Hr Hc. rewrite update_auto_pour_count.
  assert (H1 : (count (program_state m) <? CONSECUTIVE) = false)
    by (apply Z.ltb_ge; lia).
  assert (H2 : (THRESHOLD <? raw_sense hw) = false) by (apply Z.ltb_ge; lia).
  now rewrite H1, H2, andb_false_r.
Qed.

Lemma update_auto_pour_wet hw m :
  THRESHOLD < raw_sense hw ->
  count (program_state (update_auto_pour hw m)) = 0.
Proof.
  intros Hr. rewrite update_auto_pour_count.
  assert (H1 : (raw_sense hw <=? THRESHOLD) = false) by (apply Z.leb_gt; lia).
  assert (H2 : (THRESHOLD <? raw_sense hw) = true) by (apply Z.ltb_lt; lia).
  now rewrite H1, H2.
Qed.

(** C10. Creating an automatic pour leaves the debounce counter alone: with
    the enable input high, [lockout] clear, no active pour, the manual button
    released and the counter at CONSECUTIVE or above, [update_state] opens
    the valve on a pour with [manual = false] and
    [start = lockout_start = now], and the counter keeps its value (so a
    counter within its range stays at CONSECUTIVE), whereas creating a manual
    pour from the same state resets it to 0.  A following poll with a dry
    reading inside the lockout window then finds the counter still saturated
    and moves [start] to its own time. *)
Theorem auto_pour_keeps_counter hw m :
  is_enabled hw = true ->
  lockout (program_state m) = false ->
  active_pour m = None ->
  is_manual hw = false ->
  CONSECUTIVE <= count (program_state m) ->
  let m' := update_state hw m in
  active_pour m' = Some {| manual := false; start := millis hw;
                           lockout_start := millis hw |} /\
  snd (refresh hw m) = true /\
  count (program_state m') = count (program_state m) /\
  (count (program_state m) <= CONSECUTIVE ->
     count (program_state m') = CONSECUTIVE) /\
  (forall pressed, is_enabled pressed = true -> is_manual pressed = true ->
     count (program_state (update_state pressed m)) = 0) /\
  (forall dry, is_enabled dry = true -> is_manual dry = false ->
     raw_sense dry <= THRESHOLD ->
     expired LOCKOUT_TIME_MS (millis dry) (millis hw) = false ->
     active_pour (fst (loop dry m'))
       = Some {| manual := false; start := millis dry;
                 lockout_start := millis hw |}).
Proof.
  intros He Hl Hidle Hm Hsat m'. subst m'. unfold refresh; cbn.
  rewrite (update_state_auto_start hw m He Hl Hidle Hm Hsat).
  split; [reflexivity |]. split; [reflexivity |]. split; [reflexivity |].
  split; [cbn; lia |]. split.
  - intros pressed Hep Hmp.
    now rewrite (update_state_manual_start pressed m Hep Hl Hidle Hmp).
  - intros dry Hed Hmd Hdry Hin.
    set (m1 := update_auto_pour dry _).
    assert (Hp1 : active_pour m1 = Some {| manual := false; start := millis hw;
                                           lockout_start := millis hw |})
      by (unfold m1; now rewrite update_auto_pour_active).
    assert (Hl1 : lockout (program_state m1) = false).
    { unfold m1. destruct (update_auto_pour_frame dry
        {| current_pour_cell :=
             {| manual := false; start := millis hw;
                lockout_start := millis hw |};
           program_state :=
             {| current_pour := Some addr_current_pour; lockout := false;
                count := count (program_state m);
                last_raw_reading := last_raw_reading (program_state m) |} |})
        as (_ & _ & ->). reflexivity. }
    assert (Hc1 : CONSECUTIVE <= count (program_state m1)).
    { unfold m1. rewrite update_auto_pour_dry_saturated; cbn; assumption. }
    rewrite (update_state_rearm dry m1 Hed Hl1 _ Hp1 Hin Hmd Hc1).
    apply (active_pour_cell_update m1 _ _ Hp1).
Qed.

Lemma auto_pour_keeps_counter_witness :
  let hw := {| is_enabled := true; is_manual := false;
               raw_sense := 800; millis := 4000 |} in
  let m := update_auto_pour hw
             (run [dry_poll 0; dry_poll 1000; dry_poll 2000; dry_poll 3000]
                  boot) in
  count (program_state m) = 5 /\
  active_pour m = None /\
  active_pour (update_state hw m)
    = Some {| manual := false; start := 4000; lockout_start := 4000 |} /\
  count (program_state (update_state hw m)) = 5.
Proof.
  cbv zeta. split; [reflexivity |]. split; [reflexivity |].
  pose proof (auto_pour_keeps_counter
    {| is_enabled := true; is_manual := false;
       raw_sense := 800; millis := 4000 |}
    (update_auto_pour
       {| is_enabled := true; is_manual := false;
          raw_sense := 800; millis := 4000 |}
       (run [dry_poll 0; dry_poll 1000; dry_poll 2000; dry_poll 3000] boot))
    eq_refl eq_refl eq_refl eq_refl) as H.
  cbn in H.
  assert (Hsat : CONSECUTIVE <= 5) by (unfold CONSECUTIVE; lia).
  destruct (H Hsat) as (H1 & _ & H3 & _).
  split; [exact H1 | exact H3].
Defined.

(** ** Hysteresis *)

(** C6, as stated, fails: five dry polls open an automatic pour at 4000, the
    probe reads wet from T = 5000 on, and the poll at 14000, which is before
    T + HYSTERESIS_TIME_MS = 15000, closes the valve.  The interval is
    counted from [start], the last evaluation with a saturated counter, which
    is 4000 here. *)
Lemma hysteresis_from_first_wet_counterexample :
  let wet := [wet_poll 5000; wet_poll 6000; wet_poll 7000; wet_poll 8000;
              wet_poll 9000; wet_poll 10000; wet_poll 11000; wet_poll 12000;
              wet_poll 13000] in
  let m := run five_dry_polls boot in
  active_pour m
    = Some {| manual := false; start := 4000; lockout_start := 4000 |} /\
  valve_trace wet m
    = [true; true; true; true; true; true; true; true; true] /\
  14000 < 5000 + HYSTERESIS_TIME_MS /\
  should_pour (step (wet_poll 14000) (run wet m)) = false /\
  lockout (program_state (step (wet_poll 14000) (run wet m))) = false.
Proof.
  cbv zeta. repeat split.
Qed.

Lemma wet_tick_hold hw m p :
  active_pour m = Some p ->
  manual p = false ->
  lockout (program_state m) = false ->
  is_ulong (start p) -> is_ulong (lockout_start p) ->
  wet_tick p hw ->
  start p <= millis hw < start p + HYSTERESIS_TIME_MS ->
  fst (loop hw m) = update_auto_pour hw m /\ snd (loop hw m) = true.
Proof.
  intros Hp Hauto Hl Hs Hls (He & Hm & Hwet & Hnow & Hge & Hlt) Hwin.
  unfold loop, refresh; cbn.
  set (m1 := update_auto_pour hw m).
  assert (Hp1 : active_pour m1 = Some p)
    by (unfold m1; now rewrite update_auto_pour_active).
  assert (Hl1 : lockout (program_state m1) = false)
    by (unfold m1; destruct (update_auto_pour_frame hw m) as (_ & _ & ->);
        exact Hl).
  assert (Hc1 : count (program_state m1) < CONSECUTIVE)
    by (unfold m1; rewrite (update_auto_pour_wet hw m Hwet);
        unfold CONSECUTIVE; lia).
  assert (Hx : expired LOCKOUT_TIME_MS (millis hw) (lockout_start p) = false)
    by (apply expired_false; auto).
  assert (Hh : expired HYSTERESIS_TIME_MS (millis hw) (start p) = false)
    by (apply expired_false; auto; lia).
  rewrite (update_state_hysteresis_hold hw m1 He Hl1 p Hp1 Hx Hm Hc1 Hauto Hh).
  split; [reflexivity |]. apply should_pour_active. eauto.
Qed.

Lemma wet_tick_close hw m p :
  active_pour m = Some p ->
  manual p = false ->
  lockout (program_state m) = false ->
  is_ulong (start p) -> is_ulong (lockout_start p) ->
  wet_tick p hw ->
  millis hw < start p \/ start p + HYSTERESIS_TIME_MS <= millis hw ->
  active_pour (fst (loop hw m)) = None /\ snd (loop hw m) = false /\
  lockout (program_state (fst (loop hw m))) = false.
Proof.
  intros Hp Hauto Hl Hs Hls (He & Hm & Hwet & Hnow & Hge & Hlt) Hout.
  unfold loop, refresh; cbn.
  set (m1 := update_auto_pour hw m).
  assert (Hp1 : active_pour m1 = Some p)
    by (unfold m1; now rewrite update_auto_pour_active).
  assert (Hl1 : lockout (program_state m1) = false)
    by (unfold m1; destruct (update_auto_pour_frame hw m) as (_ & _ & ->);
        exact Hl).
  assert (Hc1 : count (program_state m1) < CONSECUTIVE)
    by (unfold m1; rewrite (update_auto_pour_wet hw m Hwet);
        unfold CONSECUTIVE; lia).
  assert (Hx : expired LOCKOUT_TIME_MS (millis hw) (lockout_start p) = false)
    by (apply expired_false; auto).
  assert (Hh : expired HYSTERESIS_TIME_MS (millis hw) (start p) = true)
    by (apply expired_true; auto; lia).
  rewrite (update_state_hysteresis_over hw m1 He Hl1 p Hp1 Hx Hm Hc1 Hauto Hh).
  repeat split.
Qed.

(** Wet polling intervals inside the hysteresis window change nothing but
    what the debouncer records. *)
Lemma wet_ticks_hold hws : forall m p,
  active_pour m = Some p ->
  manual p = false ->
  lockout (program_state m) = false ->
  is_ulong (start p) -> is_ulong (lockout_start p) ->
  Forall (wet_tick p) hws ->
  Forall (fun hw => start p <= millis hw < start p + HYSTERESIS_TIME_MS) hws ->
  active_pour (run (map Poll hws) m) = Some p /\
  lockout (program_state (run (map Poll hws) m)) = false /\
  forallb (fun v => v) (valve_trace (map Poll hws) m) = true.
Proof.
  induction hws as [| hw hws IH]; intros m p Hp Hauto Hl Hs Hls Hwet Hwin.
  - cbn. auto.
  - inversion Hwet as [| ? ? Hw1 Hwet']; subst.
    inversion Hwin as [| ? ? Hi1 Hwin']; subst.
    destruct (wet_tick_hold hw m p Hp Hauto Hl Hs Hls Hw1 Hi1) as (Hm1 & Hv1).
    cbn [map run fold_left valve_trace step forallb].
    rewrite Hm1.
    assert (Hs1 : should_pour (update_auto_pour hw m) = true)
      by (rewrite <- Hm1; exact Hv1).
    rewrite Hs1. cbn [andb].
    apply IH; auto.
    + now rewrite update_auto_pour_active.
    + destruct (update_auto_pour_frame hw m) as (_ & _ & ->). exact Hl.
Qed.

(** C6 (amended). Hysteresis overshoot: take an active automatic pour whose
    [start] is S (the time of the last evaluation that found the counter
    saturated) and a sequence of polling intervals in which the probe reads
    above THRESHOLD, the enable input is high, the manual button is released
    and the lockout window is not exceeded.  As long as the polls happen at
    times in [S, S + HYSTERESIS_TIME_MS) the valve is written open every time
    and the pour is unchanged; the first poll at or after
    S + HYSTERESIS_TIME_MS, or at a time below S, writes the valve closed and
    clears the pour without setting [lockout]. *)
Theorem hysteresis_overshoot hws hw m p :
  active_pour m = Some p ->
  manual p = false ->
  lockout (program_state m) = false ->
  is_ulong (start p) -> is_ulong (lockout_start p) ->
  Forall (wet_tick p) (hws ++ [hw]) ->
  Forall (fun h => start p <= millis h < start p + HYSTERESIS_TIME_MS) hws ->
  let m' := run (map Poll hws) m in
  forallb (fun v => v) (valve_trace (map Poll hws) m) = true /\
  active_pour m' = Some p /\
  (start p <= millis hw < start p + HYSTERESIS_TIME_MS ->
     snd (loop hw m') = true /\ active_pour (fst (loop hw m')) = Some p) /\
  (millis hw < start p \/ start p + HYSTERESIS_TIME_MS <= millis hw ->
     snd (loop hw m') = false /\ active_pour (fst (loop hw m')) = None /\
     lockout (program_state (fst (loop hw m'))) = false).
Proof.
  intros Hp Hauto Hl Hs Hls Hwet Hwin m'.
  apply Forall_app in Hwet as [Hwet Hlast].
  inversion Hlast as [| ? ? Hw _]; subst.
  destruct (wet_ticks_hold hws m p Hp Hauto Hl Hs Hls Hwet Hwin)
    as (Hp' & Hl' & Hopen).
  fold m' in Hp', Hl'.
  split; [exact Hopen |]. split; [exact Hp' |]. split.
  - intros Hin.
    destruct (wet_tick_hold hw m' p Hp' Hauto Hl' Hs Hls Hw Hin) as (Hm1 & Hv1).
    split; [exact Hv1 |]. rewrite Hm1. now rewrite update_auto_pour_active.
  - intros Hout.
    destruct (wet_tick_close hw m' p Hp' Hauto Hl' Hs Hls Hw Hout)
      as (H1 & H2 & H3).
    auto.
Qed.

Lemma hysteresis_overshoot_witness :
  let wet t := {| is_enabled := true; is_manual := false;
                  raw_sense := 950; millis := t |} in
  let m := run five_dry_polls boot in
  let m' := run (map Poll [wet 5000; wet 9000; wet 13999]) m in
  active_pour m' = Some {| manual := false; start := 4000;
                           lockout_start := 4000 |} /\
  snd (loop (wet 14000) m') = false.
Proof.
  cbv zeta.
  pose proof (hysteresis_overshoot
    [ {| is_enabled := true; is_manual := false;
         raw_sense := 950; millis := 5000 |};
      {| is_enabled := true; is_manual := false;
         raw_sense := 950; millis := 9000 |};
      {| is_enabled := true; is_manual := false;
         raw_sense := 950; millis := 13999 |} ]
    {| is_enabled := true; is_manual := false;
       raw_sense := 950; millis := 14000 |}
    (run five_dry_polls boot)
    {| manual := false; start := 4000; lockout_start := 4000 |}
    eq_refl eq_refl eq_refl) as H.
  assert (Hu : is_ulong 4000) by (unfold is_ulong, ULONG_MODULUS; lia).
  specialize (H Hu Hu).
  assert (Hwet : Forall (wet_tick {| manual := false; start := 4000;
                                     lockout_start := 4000 |})
    ([ {| is_enabled := true; is_manual := false;
          raw_sense := 950; millis := 5000 |};
       {| is_enabled := true; is_manual := false;
          raw_sense := 950; millis := 9000 |};
       {| is_enabled := true; is_manual := false;
          raw_sense := 950; millis := 13999 |} ] ++
     [ {| is_enabled := true; is_manual := false;
          raw_sense := 950; millis := 14000 |} ])).
  { repeat constructor; cbn;
      unfold THRESHOLD, LOCKOUT_TIME_MS, is_ulong, ULONG_MODULUS; lia. }
  specialize (H Hwet).
  assert (Hwin : Forall
    (fun h => start {| manual := false; start := 4000; lockout_start := 4000 |}
                <= millis h
              < start {| manual := false; start := 4000;
                         lockout_start := 4000 |} + HYSTERESIS_TIME_MS)
    [ {| is_enabled := true; is_manual := false;
         raw_sense := 950; millis := 5000 |};
      {| is_enabled := true; is_manual := false;
         raw_sense := 950; millis := 9000 |};
      {| is_enabled := true; is_manual := false;
         raw_sense := 950; millis := 13999 |} ]).
  { repeat constructor; cbn; unfold HYSTERESIS_TIME_MS; lia. }
  destruct (H Hwin) as (_ & Hp & _ & Hclose).
  split; [exact Hp |].
  apply Hclose. right. cbn. unfold HYSTERESIS_TIME_MS. lia.
Defined.

(** * Further properties of the sketch *)

(** Carry out the loads and stores of the goal. *)
Ltac eval_memory :=
  cbv [set_manual set_start set_lockout_start set_current_pour set_lockout
       set_count set_last_raw_reading with_state store load];
  cbn.

(** ** Evaluating twice *)

Lemma expired_lockout_fresh now : expired LOCKOUT_TIME_MS now now = false.
Proof. apply expired_fresh. reflexivity. Qed.

(** Both pin-change interrupts and the polling loop call [refresh], so the
    state machine often runs again on inputs it has just seen.  A second
    evaluation on the same inputs changes nothing. *)
Theorem update_state_idempotent hw m :
  update_state hw (update_state hw m) = update_state hw m.
Proof.
  run_update_state hw m; destruct en, lk; eval_memory; try reflexivity;
    repeat (match goal with
            | |- context [if ?b then _ else _] =>
                lazymatch b with
                | context [if _ then _ else _] => fail
                | _ => destruct b eqn:?
                end
            end;
            eval_memory;
            repeat match goal with
              | H : ?b = true |- context [?b] => rewrite H
              | H : ?b = false |- context [?b] => rewrite H
              end;
            rewrite ?expired_lockout_fresh; eval_memory);
    try reflexivity.
Qed.

(** ** Letting go of the manual button *)

(** After an evaluation the pour is manual exactly when the button was held
    in it, and a manual pour comes with a cleared counter. *)
Lemma update_state_manual_flag hw m p :
  active_pour (update_state hw m) = Some p ->
  manual p = is_manual hw /\
  (manual p = true -> count (program_state (update_state hw m)) = 0).
Proof.
  run_update_state hw m; destruct en, lk; eval_memory; try discriminate;
    repeat (match goal with
            | |- context [if ?b then _ else _] => destruct b eqn:?
            end; eval_memory);
    intros [= <-]; cbn; subst; auto; split; congruence.
Qed.

Lemma update_auto_pour_from_zero hw m :
  count (program_state m) = 0 ->
  count (program_state (update_auto_pour hw m)) < CONSECUTIVE.
Proof.
  intros H0. rewrite update_auto_pour_count, H0.
  branch; unfold CONSECUTIVE, uchar_incr, UCHAR_MODULUS; cbn; lia.
Qed.

(** The counter is cleared while the button is held so that letting go stops
    the pour: whatever state and inputs produced a manual pour, the next
    evaluation with the button released writes the valve closed, be it the
    release interrupt or a polling interval, dry or wet. *)
Theorem release_stops_manual_pour hw m p e :
  active_pour (update_state hw m) = Some p ->
  manual p = true ->
  is_manual (pins_of e) = false ->
  should_pour (step e (update_state hw m)) = false /\
  active_pour (step e (update_state hw m)) = None.
Proof.
  intros Hp Hman Hrel.
  destruct (update_state_manual_flag hw m p Hp) as (_ & Hc).
  specialize (Hc Hman).
  assert (Hl : lockout (program_state (update_state hw m)) = false).
  { destruct (lockout (program_state (update_state hw m))) eqn:Hl;
      [| reflexivity].
    apply update_state_exclusive in Hl. revert Hp. unfold active_pour.
    rewrite Hl. discriminate. }
  revert Hp Hc Hl. generalize (update_state hw m). intros m1 Hp Hc Hl.
  assert (Hgen : forall hw' m2,
            is_manual hw' = false ->
            active_pour m2 = Some p ->
            lockout (program_state m2) = false ->
            count (program_state m2) < CONSECUTIVE ->
            should_pour (update_state hw' m2) = false).
  { intros hw' m2 Hr Hp2 Hl2 Hc2.
    destruct (is_enabled hw') eqn:He.
    - destruct (expired LOCKOUT_TIME_MS (millis hw') (lockout_start p)) eqn:Hx.
      + apply (update_state_force_close hw' m2 p Hp2 Hx).
      + now rewrite (update_state_release hw' m2 He Hl2 p Hp2 Hx Hr Hc2 Hman).
    - apply (update_state_disabled hw' m2 He). }
  assert (Hclosed : should_pour (step e m1) = false).
  { destruct e as [hw' | hw']; cbn in *.
    - apply Hgen; auto. rewrite Hc. reflexivity.
    - apply Hgen; auto.
      + now rewrite update_auto_pour_active.
      + destruct (update_auto_pour_frame hw' m1) as (_ & _ & ->). exact Hl.
      + now apply update_auto_pour_from_zero. }
  split; [exact Hclosed | now apply should_pour_idle].
Qed.

Lemma release_stops_manual_pour_witness :
  let hold := {| is_enabled := true; is_manual := true;
                 raw_sense := 800; millis := 2000 |} in
  let m := run [press_at_boot; dry_poll 1000] boot in
  should_pour (update_state hold m) = true /\
  should_pour (step (dry_poll 3000) (update_state hold m)) = false.
Proof.
  cbv zeta. split; [reflexivity |].
  refine (proj1 (release_stops_manual_pour
    {| is_enabled := true; is_manual := true;
       raw_sense := 800; millis := 2000 |}
    (run [press_at_boot; dry_poll 1000] boot)
    {| manual := true; start := 2000; lockout_start := 2000 |}
    (dry_poll 3000) eq_refl eq_refl eq_refl)).
Defined.

(** ** Lockout along a run *)

(** Once locked out, the sketch stays locked out and keeps the valve closed
    through any number of interrupts and polling intervals, whatever the
    button, the probe and the clock do, as long as the enable input stays
    high. *)
Theorem lockout_persists es : forall m,
  lockout (program_state m) = true ->
  Forall (fun e => is_enabled (pins_of e) = true) es ->
  lockout (program_state (run es m)) = true /\
  Forall (fun v => v = false) (valve_trace es m).
Proof.
  induction es as [| e es IH]; intros m Hl Hen; cbn.
  - split; [exact Hl | constructor].
  - inversion Hen as [| ? ? He Hen']; subst.
    assert (Hs : lockout (program_state (step e m)) = true /\
                 should_pour (step e m) = false).
    { destruct e as [hw | hw]; cbn in *.
      - destruct (update_state_locked hw m Hl He) as (H1 & _ & H3). auto.
      - destruct (update_auto_pour_frame hw m) as (_ & _ & Hf).
        rewrite <- Hf in Hl.
        destruct (update_state_locked hw _ Hl He) as (H1 & _ & H3). auto. }
    destruct Hs as (Hl1 & Hv1). destruct (IH _ Hl1 Hen') as (Hl2 & Hv2).
    split; [exact Hl2 | constructor; assumption].
Qed.

Lemma lockout_persists_witness :
  let hold t := Interrupt {| is_enabled := true; is_manual := true;
                             raw_sense := 0; millis := t |} in
  let m := run [press_at_boot; hold 30000] boot in
  lockout (program_state m) = true /\
  lockout (program_state (run [hold 31000; dry_poll 32000] m)) = true.
Proof.
  cbv zeta. split; [reflexivity |].
  refine (proj1 (lockout_persists
    [Interrupt {| is_enabled := true; is_manual := true;
                  raw_sense := 0; millis := 31000 |}; dry_poll 32000]
    (run [press_at_boot;
          Interrupt {| is_enabled := true; is_manual := true;
                       raw_sense := 0; millis := 30000 |}] boot)
    eq_refl _)).
  repeat constructor.
Defined.

(** Lockout is entered through the lockout test only: an evaluation that
    sets [lockout] found the enable input high and an active pour whose
    lockout window had run out, or whose [lockout_start] lay ahead of the
    clock. *)
Theorem lockout_only_by_timeout hw m :
  is_ulong (millis hw) ->
  wf_memory m ->
  lockout (program_state m) = false ->
  lockout (program_state (update_state hw m)) = true ->
  is_enabled hw = true /\
  exists p, active_pour m = Some p /\
            (millis hw < lockout_start p \/
             LOCKOUT_TIME_MS <= millis hw - lockout_start p).
Proof.
  intros Hnow (_ & Hls & _). revert Hls.
  run_update_state hw m; intros Hls ->; destruct en; eval_memory;
    try discriminate.
  - destruct (expired LOCKOUT_TIME_MS now ls) eqn:Hx; eval_memory.
    + intros _. split; [reflexivity |]. eexists. split; [reflexivity |].
      cbn. now apply expired_true in Hx.
    + branch; discriminate.
  - branch; discriminate.
Qed.

Lemma lockout_only_by_timeout_witness :
  let hw := {| is_enabled := true; is_manual := true;
               raw_sense := 0; millis := 30000 |} in
  let m := run [press_at_boot] boot in
  lockout (program_state (update_state hw m)) = true /\
  is_enabled hw = true.
Proof.
  cbv zeta. split; [reflexivity |].
  refine (proj1 (lockout_only_by_timeout
    {| is_enabled := true; is_manual := true;
       raw_sense := 0; millis := 30000 |}
    (run [press_at_boot] boot) _ _ eq_refl eq_refl)).
  - unfold is_ulong, ULONG_MODULUS; cbn; lia.
  - apply run_wf; [| exact boot_wf].
    repeat constructor; unfold wf_event, is_ulong, ULONG_MODULUS; cbn; lia.
Defined.

(** ** Timestamps of a recorded pour *)

(** [start] is never earlier than [lockout_start], and never as much as the
    lockout time later. *)
Definition start_after_lockout_start (m : memory) : Prop :=
  forall p, active_pour m = Some p ->
    lockout_start p <= start p /\
    start p - lockout_start p < LOCKOUT_TIME_MS.

Lemma update_state_start_order hw m :
  is_ulong (millis hw) -> wf_memory m ->
  start_after_lockout_start m ->
  start_after_lockout_start (update_state hw m).
Proof.
  unfold start_after_lockout_start.
  intros Hnow (_ & Hls & _) Hinv p'. revert Hls Hinv.
  run_update_state hw m; intros Hls Hinv; destruct en, lk; eval_memory;
    try discriminate.
  - specialize (Hinv _ eq_refl). cbn in Hinv.
    destruct (expired LOCKOUT_TIME_MS now ls) eqn:Hx; eval_memory;
      try discriminate.
    apply expired_false in Hx; try assumption.
    branch; try discriminate; intros [= <-]; cbn; lia.
  - branch; try discriminate; intros [= <-]; cbn;
      unfold LOCKOUT_TIME_MS; lia.
Qed.

Lemma step_start_order e m :
  wf_event e -> wf_memory m ->
  start_after_lockout_start m -> start_after_lockout_start (step e m).
Proof.
  destruct e as [hw | hw]; unfold wf_event; cbn; intros Hnow Hwf Hinv.
  - now apply update_state_start_order.
  - apply update_state_start_order; [assumption | |].
    + now apply update_auto_pour_wf.
    + intros p. rewrite update_auto_pour_active. apply Hinv.
Qed.

Lemma run_start_order es : forall m,
  Forall wf_event es -> wf_memory m ->
  start_after_lockout_start m -> start_after_lockout_start (run es m).
Proof.
  induction es as [| e es IH]; intros m Hes Hwf Hinv; cbn; [exact Hinv |].
  inversion Hes; subst.
  apply IH; [assumption | now apply step_wf | now apply step_start_order].
Qed.

(** In every state the sketch reaches from start-up, with clock readings
    that fit an [unsigned long], a recorded pour has
    [lockout_start <= start], both less than LOCKOUT_TIME_MS apart, and the
    evaluation that left it ran at a time in
    [lockout_start, lockout_start + LOCKOUT_TIME_MS). *)
Theorem reachable_pour_timestamps es e p :
  Forall wf_event (es ++ [e]) ->
  active_pour (run (es ++ [e]) boot) = Some p ->
  lockout_start p <= start p /\
  start p - lockout_start p < LOCKOUT_TIME_MS /\
  lockout_start p <= millis (pins_of e) /\
  millis (pins_of e) - lockout_start p < LOCKOUT_TIME_MS.
Proof.
  intros Hes Hp.
  destruct (reachable_within_window es e p Hes Hp) as (H3 & H4).
  assert (Hinv : start_after_lockout_start (run (es ++ [e]) boot)).
  { apply run_start_order; [exact Hes | exact boot_wf |].
    intros q Hq. discriminate Hq. }
  destruct (Hinv p Hp) as (H1 & H2). auto.
Qed.

Lemma reachable_pour_timestamps_witness :
  let m := run (five_dry_polls ++ [dry_poll 5000]) boot in
  active_pour m
    = Some {| manual := false; start := 5000; lockout_start := 4000 |} /\
  4000 <= 5000 /\ 5000 - 4000 < LOCKOUT_TIME_MS.
Proof.
  cbv zeta. split; [reflexivity |].
  pose proof (reachable_pour_timestamps five_dry_polls (dry_poll 5000)
    {| manual := false; start := 5000; lockout_start := 4000 |}) as H.
  assert (Hes : Forall wf_event (five_dry_polls ++ [dry_poll 5000])).
  { repeat constructor; unfold wf_event, is_ulong, ULONG_MODULUS; cbn; lia. }
  destruct (H Hes eq_refl) as (H1 & H2 & _). cbn in H1, H2.
  split; assumption.
Defined.

(** ** Opening on consecutive dry readings *)

Lemma dry_tick_idle hw m :
  dry_tick hw ->
  active_pour m = None ->
  lockout (program_state m) = false ->
  0 <= count (program_state m) ->
  count (program_state m) + 1 < CONSECUTIVE ->
  active_pour (fst (loop hw m)) = None /\
  lockout (program_state (fst (loop hw m))) = false /\
  count (program_state (fst (loop hw m))) = count (program_state m) + 1 /\
  snd (loop hw m) = false.
Proof.
  intros (He & Hm & Hdry) Hidle Hl H0 Hlt. unfold loop, refresh; cbn.
  set (m1 := update_auto_pour hw m).
  assert (Hc1 : count (program_state m1) = count (program_state m) + 1).
  { unfold m1. rewrite update_auto_pour_count.
    apply Z.leb_le in Hdry. rewrite Hdry.
    assert (Hlt' : (count (program_state m) <? CONSECUTIVE) = true)
      by (apply Z.ltb_lt; lia).
    rewrite Hlt'. cbn. apply uchar_incr_below. lia. }
  assert (Hi1 : active_pour m1 = None)
    by (unfold m1; now rewrite update_auto_pour_active).
  assert (Hl1 : lockout (program_state m1) = false)
    by (unfold m1; destruct (update_auto_pour_frame hw m) as (_ & _ & ->);
        exact Hl).
  rewrite (update_state_idle hw m1 He Hl1 Hi1 Hm) by lia.
  repeat split; try assumption. now apply should_pour_idle.
Qed.

Lemma dry_tick_opens hw m :
  dry_tick hw ->
  active_pour m = None ->
  lockout (program_state m) = false ->
  0 <= count (program_state m) ->
  count (program_state m) + 1 = CONSECUTIVE ->
  active_pour (fst (loop hw m))
    = Some {| manual := false; start := millis hw;
              lockout_start := millis hw |} /\
  snd (loop hw m) = true.
Proof.
  intros (He & Hm & Hdry) Hidle Hl H0 Heq. unfold loop, refresh; cbn.
  set (m1 := update_auto_pour hw m).
  assert (Hc1 : count (program_state m1) = CONSECUTIVE).
  { unfold m1. rewrite update_auto_pour_count.
    apply Z.leb_le in Hdry. rewrite Hdry.
    assert (Hlt' : (count (program_state m) <? CONSECUTIVE) = true)
      by (apply Z.ltb_lt; lia).
    rewrite Hlt'. cbn. rewrite uchar_incr_below; lia. }
  assert (Hi1 : active_pour m1 = None)
    by (unfold m1; now rewrite update_auto_pour_active).
  assert (Hl1 : lockout (program_state m1) = false)
    by (unfold m1; destruct (update_auto_pour_frame hw m) as (_ & _ & ->);
        exact Hl).
  rewrite (update_state_auto_start hw m1 He Hl1 Hi1 Hm) by lia.
  split; reflexivity.
Qed.

Lemma dry_ticks_idle hws : forall m,
  Forall dry_tick hws ->
  active_pour m = None ->
  lockout (program_state m) = false ->
  0 <= count (program_state m) ->
  count (program_state m) + Z.of_nat (length hws) < CONSECUTIVE ->
  active_pour (run (map Poll hws) m) = None /\
  lockout (program_state (run (map Poll hws) m)) = false /\
  count (program_state (run (map Poll hws) m))
    = count (program_state m) + Z.of_nat (length hws) /\
  Forall (fun v => v = false) (valve_trace (map Poll hws) m).
Proof.
  induction hws as [| hw hws IH]; intros m Hdry Hidle Hl H0 Hlt.
  - cbn. repeat split; try assumption; [lia | constructor].
  - inversion Hdry as [| ? ? Hd Hdry']; subst.
    cbn [length] in Hlt. rewrite Nat2Z.inj_succ in Hlt.
    destruct (dry_tick_idle hw m Hd Hidle Hl H0) as (Hi1 & Hl1 & Hc1 & Hv1);
      [lia |].
    destruct (IH (fst (loop hw m)) Hdry' Hi1 Hl1) as (Hi2 & Hl2 & Hc2 & Hv2);
      [lia | lia |].
    change (run (map Poll (hw :: hws)) m)
      with (run (map Poll hws) (fst (loop hw m))).
    repeat split; try assumption.
    + rewrite Hc2, Hc1. cbn [length]. lia.
    + cbn [map valve_trace step]. constructor; [exact Hv1 | exact Hv2].
Qed.

(** With the enable input high, the button released and no pour active, the
    valve stays closed while the dry readings counted so far are fewer than
    CONSECUTIVE, and the polling interval that brings the count to
    CONSECUTIVE opens an automatic pour stamped with its own time. *)
Theorem opens_on_consecutive_dry hws hw m :
  Forall dry_tick (hws ++ [hw]) ->
  active_pour m = None ->
  lockout (program_state m) = false ->
  0 <= count (program_state m) ->
  count (program_state m) + Z.of_nat (length hws) + 1 = CONSECUTIVE ->
  Forall (fun v => v = false) (valve_trace (map Poll hws) m) /\
  snd (loop hw (run (map Poll hws) m)) = true /\
  active_pour (fst (loop hw (run (map Poll hws) m)))
    = Some {| manual := false; start := millis hw;
              lockout_start := millis hw |}.
Proof.
  intros Hdry Hidle Hl H0 Heq.
  apply Forall_app in Hdry as [Hdry Hlast].
  inversion Hlast as [| ? ? Hd _]; subst.
  destruct (dry_ticks_idle hws m Hdry Hidle Hl H0) as (Hi & Hl' & Hc & Hv);
    [lia |].
  destruct (dry_tick_opens hw _ Hd Hi Hl') as (Hp & Ho); [lia | lia |].
  auto.
Qed.

Lemma opens_on_consecutive_dry_witness :
  let dry t := {| is_enabled := true; is_manual := false;
                  raw_sense := 900; millis := t |} in
  let m := step (wet_poll 0) boot in
  valve_trace (map Poll [dry 1000; dry 2000; dry 3000; dry 4000]) m
    = [false; false; false; false] /\
  snd (loop (dry 5000)
         (run (map Poll [dry 1000; dry 2000; dry 3000; dry 4000]) m)) = true.
Proof.
  cbv zeta. split; [reflexivity |].
  refine (proj1 (proj2 (opens_on_consecutive_dry
    [ {| is_enabled := true; is_manual := false;
         raw_sense := 900; millis := 1000 |};
      {| is_enabled := true; is_manual := false;
         raw_sense := 900; millis := 2000 |};
      {| is_enabled := true; is_manual := false;
         raw_sense := 900; millis := 3000 |};
      {| is_enabled := true; is_manual := false;
         raw_sense := 900; millis := 4000 |} ]
    {| is_enabled := true; is_manual := false;
       raw_sense := 900; millis := 5000 |}
    (step (wet_poll 0) boot) _ eq_refl eq_refl _ _))).
  - repeat constructor; cbn; unfold THRESHOLD; lia.
  - cbn. lia.
  - cbn. unfold CONSECUTIVE. lia.
Defined.

(** ** The pour object behind a [NULL] pointer *)

Lemma same_view_cases m1 m2 :
  same_view m1 m2 ->
  m1 = m2 \/
  (current_pour (program_state m1) = None /\
   program_state m1 = program_state m2).
Proof.
  unfold same_view, active_pour.
  destruct m1 as [c1 [[[]|] lk1 ct1 lr1]], m2 as [c2 s2]; cbn;
    intros (<- & Hp); cbn in *.
  - left. injection Hp as <-. reflexivity.
  - right. auto.
Qed.

Lemma same_view_refl m : same_view m m.
Proof. split; reflexivity. Qed.

Lemma update_state_view hw m1 m2 :
  same_view m1 m2 -> same_view (update_state hw m1) (update_state hw m2).
Proof.
  intros H. destruct (same_view_cases m1 m2 H) as [-> | (Hnull & Hs)].
  - apply same_view_refl.
  - destruct m1 as [c1 s1], m2 as [c2 s2]. cbn in Hs, Hnull. subst s2.
    destruct s1 as [cp lk ct lr]. cbn in Hnull. subst cp.
    split_pins hw. unfold same_view, active_pour, update_state. cbn.
    destruct en, lk; eval_memory; try (split; reflexivity);
      branch; eval_memory; split; reflexivity.
Qed.

Lemma update_auto_pour_view hw m1 m2 :
  same_view m1 m2 ->
  same_view (update_auto_pour hw m1) (update_auto_pour hw m2).
Proof.
  intros H. destruct (same_view_cases m1 m2 H) as [-> | (Hnull & Hs)].
  - apply same_view_refl.
  - destruct m1 as [c1 s1], m2 as [c2 s2]. cbn in Hs, Hnull. subst s2.
    destruct s1 as [cp lk ct lr]. cbn in Hnull. subst cp.
    unfold same_view, active_pour, update_auto_pour. eval_memory.
    branch; eval_memory; split; reflexivity.
Qed.

Lemma step_view e m1 m2 :
  same_view m1 m2 -> same_view (step e m1) (step e m2).
Proof.
  destruct e as [hw | hw]; cbn; intros H.
  - now apply update_state_view.
  - now apply update_state_view, update_auto_pour_view.
Qed.

Lemma same_view_should_pour m1 m2 :
  same_view m1 m2 -> should_pour m1 = should_pour m2.
Proof. intros (Hs & _). unfold should_pour. now rewrite Hs. Qed.

(** The closing paths zero the pour object, the guard leaves it as it was;
    either way its contents are dead while the pointer is [NULL].  Two
    memories with the same state record and the same active pour go through
    any run with the same valve levels, and end with the same state record
    and active pour: the pointer into a global behaves as an optional
    value. *)
Theorem stale_pour_object_unobservable es : forall m1 m2,
  same_view m1 m2 ->
  valve_trace es m1 = valve_trace es m2 /\
  same_view (run es m1) (run es m2).
Proof.
  induction es as [| e es IH]; intros m1 m2 H; cbn.
  - split; [reflexivity | exact H].
  - pose proof (step_view e m1 m2 H) as H1.
    destruct (IH _ _ H1) as (Hv & Hr).
    split; [| exact Hr].
    now rewrite Hv, (same_view_should_pour _ _ H1).
Qed.

Lemma stale_pour_object_unobservable_witness :
  let disable := Interrupt {| is_enabled := false; is_manual := true;
                              raw_sense := 0; millis := 500 |} in
  let m := run [press_at_boot; disable] boot in
  current_pour_cell m = {| manual := true; start := 0; lockout_start := 0 |} /\
  current_pour_cell boot = closed_cell /\
  valve_trace five_dry_polls m = valve_trace five_dry_polls boot.
Proof.
  cbv zeta. split; [reflexivity |]. split; [reflexivity |].
  refine (proj1 (stale_pour_object_unobservable five_dry_polls
    (run [press_at_boot;
          Interrupt {| is_enabled := false; is_manual := true;
                       raw_sense := 0; millis := 500 |}] boot)
    boot _)).
  split; reflexivity.
Defined.

(** ** What each half of the polling interval writes *)

Lemma update_state_last_raw_reading hw m :
  last_raw_reading (program_state (update_state hw m))
    = last_raw_reading (program_state m).
Proof.
  run_update_state hw m; destruct en, lk; eval_memory; branch; reflexivity.
Qed.

Lemma update_auto_pour_last_raw_reading hw m :
  last_raw_reading (program_state (update_auto_pour hw m)) = raw_sense hw.
Proof.
  split_memory m; unfold update_auto_pour; eval_memory; branch; reflexivity.
Qed.

(** The debouncer never moves the valve and never touches [lockout]; the
    state machine never changes the recorded reading and never raises the
    counter.  So a polling interval ends with the sample it took in
    [last_raw_reading] and with a counter that is 0 or the debouncer's. *)
Theorem polling_interval_frame hw m :
  should_pour (update_auto_pour hw m) = should_pour m /\
  lockout (program_state (update_auto_pour hw m)) = lockout (program_state m) /\
  last_raw_reading (program_state (fst (loop hw m))) = raw_sense hw /\
  (count (program_state (fst (loop hw m))) = 0 \/
   count (program_state (fst (loop hw m)))
     = count (program_state (update_auto_pour hw m))).
Proof.
  destruct (update_auto_pour_frame hw m) as (_ & Hcp & Hl).
  split; [unfold should_pour; now rewrite Hcp |].
  split; [exact Hl |].
  unfold loop, refresh; cbn. split.
  - rewrite update_state_last_raw_reading.
    apply update_auto_pour_last_raw_reading.
  - destruct (update_state_count hw (update_auto_pour hw m)); auto.
Qed.

(** ** The status dump *)

Section StatusDumpFacts.

Import Stdlib.Strings.String Stdlib.Strings.Ascii.
Local Open Scope string_scope.

Lemma decimal_inj z z' : decimal z = decimal z' -> z = z'.
Proof.
  unfold decimal. intros H.
  apply (f_equal DecimalString.NilZero.int_of_string) in H.
  assert (Hnn : forall x, Z.to_int x <> Decimal.Pos Decimal.Nil /\
                          Z.to_int x <> Decimal.Neg Decimal.Nil).
  { intros [| q | q]; cbn; split; try discriminate;
      intros [= Hq]; now apply (DecimalPos.Unsigned.to_uint_nonnil q). }
  rewrite !DecimalString.NilZero.isi in H by apply Hnn.
  injection H as H. now apply DecimalZ.to_int_inj.
Qed.

Lemma numeric_uint d :
  numeric (DecimalString.NilEmpty.string_of_uint d) = true.
Proof. induction d; cbn; auto. Qed.

Lemma numeric_uint_zero d :
  numeric (DecimalString.NilZero.string_of_uint d) = true.
Proof.
  destruct d; try reflexivity;
    unfold DecimalString.NilZero.string_of_uint; apply numeric_uint.
Qed.

Lemma numeric_decimal z : numeric (decimal z) = true.
Proof.
  unfold decimal, DecimalString.NilZero.string_of_int.
  destruct (Z.to_int z) as [d | d].
  - apply numeric_uint_zero.
  - cbn [numeric]. rewrite numeric_uint_zero. reflexivity.
Qed.

(** A printed integer ends where the first other character stands. *)
Lemma numeric_prefix d : forall d' c c' r r',
  numeric d = true -> numeric d' = true ->
  is_numeric c = false -> is_numeric c' = false ->
  d ++ String c r = d' ++ String c' r' ->
  d = d' /\ String c r = String c' r'.
Proof.
  induction d as [| a d IH]; intros [| a' d'] c c' r r' Hd Hd' Hc Hc' H;
    cbn in *.
  - auto.
  - injection H as -> _. apply andb_true_iff in Hd' as [Ha _]. congruence.
  - injection H as -> _. apply andb_true_iff in Hd as [Ha _]. congruence.
  - injection H as -> H.
    apply andb_true_iff in Hd as [_ Hd]. apply andb_true_iff in Hd' as [_ Hd'].
    destruct (IH d' c c' r r' Hd Hd' Hc Hc' H) as (-> & Hr). auto.
Qed.

Arguments decimal : simpl never.

(** Compare two dumps character by character. *)
Ltac peel H :=
  repeat first
    [ match type of H with
      | String ?a _ = String ?a _ => injection H as H
      end
    | discriminate H
    | match type of H with
      | decimal _ ++ String _ _ = decimal _ ++ String _ _ =>
          let E := fresh "E" in
          apply numeric_prefix in H;
          [ destruct H as [E H]; apply decimal_inj in E
          | apply numeric_decimal | apply numeric_decimal
          | reflexivity | reflexivity ]
      end
    | match type of H with
      | context [if ?b then _ else _] => is_var b; destruct b; cbn in H
      end ].

Lemma print_state_view now m m' :
  same_view m m' -> print_state now m = print_state now m'.
Proof.
  intros H. destruct (same_view_cases m m' H) as [-> | (Hnull & Hs)];
    [reflexivity |].
  unfold print_state. rewrite <- Hs, Hnull. reflexivity.
Qed.

(** The status dump shows the whole observable state and nothing else: two
    dumps are the same text exactly when they were printed at the same clock
    reading from memories with the same state record and the same active
    pour.  Every field can be read back from the serial line; the contents
    of the pour object behind a [NULL] pointer are not printed. *)
Theorem status_dump_faithful now now' m m' :
  serial_text (print_state now m) = serial_text (print_state now' m') <->
  now = now' /\ same_view m m'.
Proof.
  split.
  - split_memory m; split_memory m'; unfold print_state; cbn; intros H;
      peel H; subst; repeat split.
  - intros (<- & H). now rewrite (print_state_view now m m' H).
Qed.

End StatusDumpFacts.

(** ** Disabling as a reset *)

Lemma update_state_control hw m1 m2 :
  same_control m1 m2 ->
  same_control (update_state hw m1) (update_state hw m2).
Proof.
  unfold same_control, active_pour.
  destruct m1 as [[mn1 st1 ls1] [cp1 lk1 ct1 lr1]],
           m2 as [[mn2 st2 ls2] [cp2 lk2 ct2 lr2]]; cbn.
  intros (<- & <- & <- & Hp). split_pins hw.
  destruct cp1 as [[] |]; cbn in Hp.
  - injection Hp as <- <- <-.
    unfold update_state; cbn. destruct en, lk1; eval_memory; auto;
      branch; eval_memory; auto.
  - unfold update_state; cbn. destruct en, lk1; eval_memory; auto;
      branch; eval_memory; auto.
Qed.

Lemma update_auto_pour_control hw m1 m2 :
  same_control m1 m2 ->
  same_control (update_auto_pour hw m1) (update_auto_pour hw m2).
Proof.
  unfold same_control, active_pour.
  destruct m1 as [[mn1 st1 ls1] [cp1 lk1 ct1 lr1]],
           m2 as [[mn2 st2 ls2] [cp2 lk2 ct2 lr2]]; cbn.
  intros (<- & <- & <- & Hp).
  unfold update_auto_pour; eval_memory. branch; eval_memory; auto.
Qed.

Lemma step_control e m1 m2 :
  same_control m1 m2 -> same_control (step e m1) (step e m2).
Proof.
  destruct e as [hw | hw]; cbn; intros H.
  - now apply update_state_control.
  - now apply update_state_control, update_auto_pour_control.
Qed.

Lemma run_control es : forall m1 m2,
  same_control m1 m2 ->
  valve_trace es m1 = valve_trace es m2 /\
  same_control (run es m1) (run es m2).
Proof.
  induction es as [| e es IH]; intros m1 m2 H; cbn.
  - split; [reflexivity | exact H].
  - pose proof (step_control e m1 m2 H) as H1.
    destruct (IH _ _ H1) as (Hv & Hr). split; [| exact Hr].
    rewrite Hv. f_equal. unfold should_pour.
    destruct H1 as (-> & _). reflexivity.
Qed.

(** Taking the enable input low is a reset: whatever the state, an
    evaluation with the enable input low leaves no pour, no lockout and a
    cleared counter, and from then on the valve is driven exactly as it
    would be from start-up on the same inputs. *)
Theorem disable_is_reset e m es :
  is_enabled (pins_of e) = false ->
  should_pour (step e m) = false /\
  same_control (step e m) boot /\
  valve_trace es (step e m) = valve_trace es boot.
Proof.
  intros He.
  assert (Hc : same_control (step e m) boot).
  { destruct e as [hw | hw]; cbn in *.
    - destruct (update_state_disabled hw m He) as (Hl & Hp & Hc & _).
      unfold same_control, active_pour. rewrite Hl, Hp, Hc. cbn. auto.
    - destruct (update_state_disabled hw (update_auto_pour hw m) He)
        as (Hl & Hp & Hc & _).
      unfold same_control, active_pour. rewrite Hl, Hp, Hc. cbn. auto. }
  split; [| split; [exact Hc | apply (run_control es _ _ Hc)]].
  unfold should_pour. destruct Hc as (-> & _). reflexivity.
Qed.

Lemma disable_is_reset_witness :
  let hold t := Interrupt {| is_enabled := true; is_manual := true;
                             raw_sense := 0; millis := t |} in
  let off := Interrupt {| is_enabled := false; is_manual := false;
                          raw_sense := 0; millis := 40000 |} in
  let m := run [press_at_boot; hold 30000] boot in
  lockout (program_state m) = true /\
  valve_trace five_dry_polls (step off m) = valve_trace five_dry_polls boot.
Proof.
  cbv zeta. split; [reflexivity |].
  refine (proj2 (proj2 (disable_is_reset
    (Interrupt {| is_enabled := false; is_manual := false;
                  raw_sense := 0; millis := 40000 |})
    (run [press_at_boot;
          Interrupt {| is_enabled := true; is_manual := true;
                       raw_sense := 0; millis := 30000 |}] boot)
    five_dry_polls eq_refl))).
Defined.

(** ** The interval tests in elapsed time *)

Lemma ulong_split t :
  t = ULONG_MODULUS * (t / ULONG_MODULUS) + t mod ULONG_MODULUS /\
  0 <= t mod ULONG_MODULUS < ULONG_MODULUS.
Proof.
  split.
  - apply Z.div_mod. unfold ULONG_MODULUS. lia.
  - apply Z.mod_pos_bound. reflexivity.
Qed.

(** Take two moments [t0 <= t1], in milliseconds since power-up and less
    than 2^32 ms apart, and let the clock read [t0 mod 2^32] and
    [t1 mod 2^32].  The interval test comparing the two readings answers
    "expired" exactly when at least [limit] ms went by or the clock rolled
    over in between.  So an interval never outlasts its limit, and at the
    roll-over of [millis()], every 2^32 ms, it is cut short: a pour open
    across it is locked out at once. *)
Theorem expired_in_elapsed_time limit t0 t1 hw m p :
  0 < limit <= ULONG_MODULUS ->
  0 <= t0 <= t1 ->
  t1 - t0 < ULONG_MODULUS ->
  (expired limit (t1 mod ULONG_MODULUS) (t0 mod ULONG_MODULUS) = true <->
   limit <= t1 - t0 \/ t0 / ULONG_MODULUS <> t1 / ULONG_MODULUS) /\
  (is_enabled hw = true ->
   lockout (program_state m) = false ->
   active_pour m = Some p ->
   lockout_start p = t0 mod ULONG_MODULUS ->
   millis hw = t1 mod ULONG_MODULUS ->
   (lockout (program_state (update_state hw m)) = true <->
    LOCKOUT_TIME_MS <= t1 - t0 \/ t0 / ULONG_MODULUS <> t1 / ULONG_MODULUS)).
Proof.
  intros Hlim Ht Hgap.
  assert (Hgen : forall l, 0 < l <= ULONG_MODULUS ->
            expired l (t1 mod ULONG_MODULUS) (t0 mod ULONG_MODULUS) = true <->
            l <= t1 - t0 \/ t0 / ULONG_MODULUS <> t1 / ULONG_MODULUS).
  { intros l Hl.
    destruct (ulong_split t0) as (E0 & B0), (ulong_split t1) as (E1 & B1).
    rewrite expired_true by assumption.
    revert E0 E1 B0 B1 Hl Hgap.
    generalize (t0 / ULONG_MODULUS) (t0 mod ULONG_MODULUS)
               (t1 / ULONG_MODULUS) (t1 mod ULONG_MODULUS).
    unfold ULONG_MODULUS. intros q0 r0 q1 r1 E0 E1 B0 B1 Hl Hgap.
    change (2 ^ 32) with 4294967296 in *. lia. }
  split; [apply Hgen, Hlim |].
  intros He Hl Hp Hls Hnow.
  rewrite <- (Hgen LOCKOUT_TIME_MS)
    by (unfold LOCKOUT_TIME_MS, ULONG_MODULUS; lia).
  rewrite <- Hls, <- Hnow.
  destruct (expired LOCKOUT_TIME_MS (millis hw) (lockout_start p)) eqn:Hx.
  - rewrite (update_state_timeout hw m He Hl p Hp Hx). cbn. tauto.
  - destruct (lockout (program_state (update_state hw m))) eqn:Hl'.
    + pose proof (update_state_exclusive hw m Hl') as Hnone.
      destruct (is_manual hw) eqn:Hm.
      * rewrite (update_state_manual_held hw m He Hl p Hp Hx Hm) in Hl'.
        discriminate Hl'.
      * revert Hl'. clear Hnone. revert He Hl Hp Hx Hm.
        run_update_state hw m; intros; try discriminate; subst.
        injection Hp as <-. cbn in *. revert Hl'. rewrite Hx.
        branch; discriminate.
    + split; discriminate.
Qed.

Lemma expired_in_elapsed_time_witness :
  let t0 := 4294967000 in
  let t1 := 4294967496 in
  let hw := {| is_enabled := true; is_manual := true;
               raw_sense := 0; millis := 200 |} in
  let m := run [Interrupt {| is_enabled := true; is_manual := true;
                             raw_sense := 0; millis := 4294967000 |}] boot in
  t1 - t0 < LOCKOUT_TIME_MS /\
  lockout (program_state (update_state hw m)) = true.
Proof.
  cbv zeta. split; [unfold LOCKOUT_TIME_MS; lia |].
  pose proof (expired_in_elapsed_time LOCKOUT_TIME_MS
    4294967000 4294967496
    {| is_enabled := true; is_manual := true; raw_sense := 0; millis := 200 |}
    (run [Interrupt {| is_enabled := true; is_manual := true;
                       raw_sense := 0; millis := 4294967000 |}] boot)
    {| manual := true; start := 4294967000; lockout_start := 4294967000 |}
    ltac:(unfold LOCKOUT_TIME_MS, ULONG_MODULUS; lia) ltac:(lia)
    ltac:(unfold ULONG_MODULUS; lia)) as (_ & H).
  apply (H eq_refl eq_refl eq_refl eq_refl eq_refl).
  right. vm_compute. discriminate.
Defined.

(** * The earlier sketch *)

Ltac split_globals g :=
  let mf := fresh "mf" in
  let c := fresh "c" in
  let ef := fresh "ef" in
  let pf := fresh "pf" in
  let af := fresh "af" in
  let s0 := fresh "s0" in
  destruct g as [mf c ef pf af s0].

Ltac run_simple :=
  unfold Simple.step, Simple.determineManual, Simple.determineEnabled,
    Simple.startPour, Simple.stopPour, Simple.enable, Simple.disable,
    Simple.loop, Simple.recompute, Simple.shouldPour,
    Simple.set_manual, Simple.set_ct, Simple.set_enabled,
    Simple.set_isPouring, Simple.set_isCurrentPourAuto,
    Simple.set_currentAutoPourStart, Simple.truthy, Simple.of_bool;
  cbn.

Lemma simple_recompute_invariant now g :
  Simple.invariant g -> Simple.invariant (fst (Simple.recompute now g)).
Proof.
  unfold Simple.invariant, Simple.flag. split_globals g; cbn.
  intros (Hc & Hm & He & Hp & Ha & Hap).
  run_simple.
  destruct He as [-> | ->]; cbn; [intuition lia |].
  destruct Hm as [-> | ->]; cbn; [| intuition lia].
  destruct (10 <=? c) eqn:Hsat; cbn; [intuition lia |].
  destruct Hp as [-> | ->], Ha as [-> | ->]; cbn;
    repeat match goal with
      | |- context [if ?b then _ else _] => destruct b; cbn
      end;
    intuition lia.
Qed.

Lemma simple_step_invariant e g :
  Simple.invariant g -> Simple.invariant (fst (Simple.step e g)).
Proof.
  intros H.
  destruct e as [[|] now | [|] now | val now];
    unfold Simple.step, Simple.determineManual, Simple.determineEnabled,
      Simple.startPour, Simple.stopPour, Simple.enable, Simple.disable,
      Simple.loop;
    apply simple_recompute_invariant;
    revert H; unfold Simple.invariant, Simple.flag; split_globals g; cbn;
    try (intuition lia).
  intros (Hc & Hrest).
  destruct ((val <=? 900) && (c <? 10)) eqn:Hdry; cbn.
  - apply andb_true_iff in Hdry as [_ Hlt]. apply Z.ltb_lt in Hlt.
    intuition lia.
  - destruct (900 <? val); cbn; intuition lia.
Qed.

Lemma simple_run_invariant es : forall g,
  Simple.invariant g -> Simple.invariant (Simple.run es g).
Proof.
  induction es as [| e es IH]; intros g H; cbn; [exact H |].
  apply IH. now apply simple_step_invariant.
Qed.

(** In every state the earlier sketch reaches after [setup], the dry-reading
    count is between 0 and 10, the four [int] flags are 0 or 1, and the
    automatic-pour flag is set only while the valve is open. *)
Theorem simple_reachable_invariant manual_high enable_high now now' es :
  Simple.invariant
    (Simple.run es (Simple.setup manual_high enable_high now now')).
Proof.
  apply simple_run_invariant. unfold Simple.setup.
  apply simple_run_invariant.
  unfold Simple.invariant, Simple.flag; cbn. intuition lia.
Qed.

Lemma simple_poll_held val now g :
  Simple.manual g <> 0 ->
  Simple.manual (fst (Simple.loop val now g)) = Simple.manual g /\
  Simple.enabled (fst (Simple.loop val now g)) = Simple.enabled g /\
  Simple.isCurrentPourAuto (fst (Simple.loop val now g)) = 0 /\
  (Simple.enabled g <> 0 -> snd (Simple.loop val now g) = true).
Proof.
  split_globals g; cbn. intros Hm. apply Z.eqb_neq in Hm.
  run_simple.
  destruct ((val <=? 900) && (c <? 10)); cbn;
    [| destruct (900 <? val); cbn];
    destruct (ef =? 0) eqn:He; cbn; rewrite ?Hm; cbn;
    repeat split; auto; intros Hne; apply Z.eqb_neq in Hne; congruence.
Qed.

Lemma simple_poll_saturated val now g :
  Simple.enabled g <> 0 ->
  Simple.ct g = 10 ->
  val <= 900 ->
  Simple.enabled (fst (Simple.loop val now g)) = Simple.enabled g /\
  Simple.ct (fst (Simple.loop val now g)) = 10 /\
  snd (Simple.loop val now g) = true.
Proof.
  split_globals g; cbn. intros He -> Hdry. apply Z.eqb_neq in He.
  run_simple.
  assert (Hw : (900 <? val) = false) by (apply Z.ltb_ge; lia).
  rewrite andb_false_r, Hw. cbn. rewrite He. cbn.
  destruct (mf =? 0); cbn; auto.
Qed.

(** The earlier sketch has no lockout: with the enable flag set, the valve
    is written open at every polling interval, at any clock reading and for
    any number of intervals, while the button stays held, and likewise while
    the probe keeps reading dry once the count has reached 10. *)
Theorem simple_no_safety_timeout es : forall g,
  Forall Simple.is_poll es ->
  Simple.enabled g <> 0 ->
  (Simple.manual g <> 0 ->
     Forall (fun v => v = true) (Simple.valve_trace es g)) /\
  (Simple.ct g = 10 ->
   Forall (fun e => match e with
                    | Simple.Poll val _ => val <= 900
                    | _ => True
                    end) es ->
     Forall (fun v => v = true) (Simple.valve_trace es g)).
Proof.
  induction es as [| e es IH]; intros g Hpoll He.
  - split; intros; constructor.
  - inversion Hpoll as [| ? ? Hp Hpoll']; subst.
    destruct e as [? ? | ? ? | val now]; try contradiction.
    cbn [Simple.valve_trace Simple.step]. split.
    + intros Hm.
      destruct (simple_poll_held val now g Hm) as (Hm1 & He1 & _ & Hv).
      constructor; [exact (Hv He) |].
      rewrite <- He1 in He. rewrite <- Hm1 in Hm.
      exact (proj1 (IH _ Hpoll' He) Hm).
    + intros Hsat Hdry. inversion Hdry as [| ? ? Hd Hdry']; subst.
      destruct (simple_poll_saturated val now g He Hsat Hd) as (He1 & Hc1 & Hv).
      constructor; [exact Hv |].
      rewrite <- He1 in He.
      exact (proj2 (IH _ Hpoll' He) Hc1 Hdry').
Qed.

Lemma simple_no_safety_timeout_witness :
  let g := Simple.setup true true 0 0 in
  Simple.valve_trace
    [Simple.Poll 950 1000; Simple.Poll 950 40000; Simple.Poll 950 4000000] g
  = [true; true; true].
Proof.
  cbv zeta.
  pose proof (proj1 (simple_no_safety_timeout
    [Simple.Poll 950 1000; Simple.Poll 950 40000; Simple.Poll 950 4000000]
    (Simple.setup true true 0 0)
    ltac:(repeat constructor) ltac:(cbn; lia)) ltac:(cbn; lia)) as H.
  reflexivity.
Defined.

(** The grace period of the earlier sketch: an automatic pour with fewer
    than 10 dry readings counted stays open at clock readings from
    [currentAutoPourStart] up to and including 10000 ms later, and is closed,
    with the flag and the start time cleared, at any later reading and at
    any reading below [currentAutoPourStart]. *)
Theorem simple_hysteresis_window now g :
  Simple.enabled g <> 0 ->
  Simple.manual g = 0 ->
  Simple.ct g < 10 ->
  Simple.isPouring g <> 0 ->
  Simple.isCurrentPourAuto g <> 0 ->
  is_ulong now ->
  is_ulong (Simple.currentAutoPourStart g) ->
  (Simple.currentAutoPourStart g <= now
     <= Simple.currentAutoPourStart g + 10000 ->
   Simple.recompute now g = (Simple.set_isPouring 1 g, true)) /\
  (now < Simple.currentAutoPourStart g \/
   Simple.currentAutoPourStart g + 10000 < now ->
   Simple.recompute now g =
     ({| Simple.manual := 0; Simple.ct := Simple.ct g;
         Simple.enabled := Simple.enabled g; Simple.isPouring := 0;
         Simple.isCurrentPourAuto := 0;
         Simple.currentAutoPourStart := 0 |}, false)).
Proof.
  split_globals g; cbn. intros He -> Hc Hp Ha Hnow Hs.
  apply Z.eqb_neq in He, Hp, Ha. apply Z.leb_gt in Hc.
  run_simple. rewrite He, Hc, Hp, Ha. cbn. split.
  - intros [Hge Hle].
    rewrite (ulong_sub_small now s0 Hnow Hs Hge).
    apply Z.leb_le in Hge. rewrite Hge. cbn.
    assert (Hin : (now - s0 <=? 10000) = true) by (apply Z.leb_le; lia).
    rewrite Hin. reflexivity.
  - intros [Hlt | Hgt].
    + apply Z.leb_gt in Hlt. rewrite Hlt. reflexivity.
    + assert (Hge : s0 <= now) by lia.
      rewrite (ulong_sub_small now s0 Hnow Hs Hge).
      assert (Hout : (now - s0 <=? 10000) = false) by (apply Z.leb_gt; lia).
      rewrite Hout, andb_false_r. reflexivity.
Qed.

Lemma simple_hysteresis_window_witness :
  let polls := [Simple.Poll 800 0; Simple.Poll 800 500; Simple.Poll 800 1000;
                Simple.Poll 800 1500; Simple.Poll 800 2000;
                Simple.Poll 800 2500; Simple.Poll 800 3000;
                Simple.Poll 800 3500; Simple.Poll 800 4000;
                Simple.Poll 800 4500; Simple.Poll 950 5000] in
  let g := Simple.run polls (Simple.setup false true 0 0) in
  Simple.currentAutoPourStart g = 4500 /\
  snd (Simple.recompute 14500 g) = true /\
  snd (Simple.recompute 14501 g) = false.
Proof.
  cbv zeta.
  assert (Hg : Simple.run
       [Simple.Poll 800 0; Simple.Poll 800 500; Simple.Poll 800 1000;
        Simple.Poll 800 1500; Simple.Poll 800 2000;
        Simple.Poll 800 2500; Simple.Poll 800 3000;
        Simple.Poll 800 3500; Simple.Poll 800 4000;
        Simple.Poll 800 4500; Simple.Poll 950 5000]
       (Simple.setup false true 0 0)
     = {| Simple.manual := 0; Simple.ct := 0; Simple.enabled := 1;
          Simple.isPouring := 1; Simple.isCurrentPourAuto := 1;
          Simple.currentAutoPourStart := 4500 |})
    by (vm_compute; reflexivity).
  rewrite Hg. split; [reflexivity |].
  pose proof (simple_hysteresis_window 14500
    {| Simple.manual := 0; Simple.ct := 0; Simple.enabled := 1;
       Simple.isPouring := 1; Simple.isCurrentPourAuto := 1;
       Simple.currentAutoPourStart := 4500 |}) as H.
  assert (Hu1 : is_ulong 14500) by (unfold is_ulong, ULONG_MODULUS; lia).
  assert (Hu2 : is_ulong 4500) by (unfold is_ulong, ULONG_MODULUS; lia).
  destruct (H ltac:(cbn; lia) eq_refl ltac:(cbn; lia) ltac:(cbn; lia)
              ltac:(cbn; lia) Hu1 Hu2) as (Hin & _).
  split; [| vm_compute; reflexivity].
  now rewrite (Hin ltac:(cbn; lia)).
Defined.

Lemma simple_held_auto_clear es : forall g,
  Forall Simple.is_poll es ->
  Simple.manual g <> 0 ->
  Simple.isCurrentPourAuto g = 0 ->
  Simple.manual (Simple.run es g) <> 0 /\
  Simple.isCurrentPourAuto (Simple.run es g) = 0.
Proof.
  induction es as [| e es IH]; intros g Hpoll Hm Ha; cbn; [auto |].
  inversion Hpoll as [| ? ? Hp Hpoll']; subst.
  destruct e as [? ? | ? ? | val now]; try contradiction.
  destruct (simple_poll_held val now g Hm) as (Hm1 & _ & Ha1 & _).
  apply (IH _ Hpoll'); cbn; congruence.
Qed.

(** Releasing the button in the earlier sketch: after a press and any number
    of polling intervals, the release closes the valve unless the enable
    flag is set and 10 dry readings have been counted, in which case the
    pour carries on. *)
Theorem simple_release es now now' g :
  Forall Simple.is_poll es ->
  let held := Simple.run (Simple.ManualPin true now :: es) g in
  snd (Simple.determineManual false now' held)
    = Simple.truthy (Simple.enabled held) && (10 <=? Simple.ct held).
Proof.
  intros Hpoll held.
  assert (Hfirst : Simple.manual (fst (Simple.step (Simple.ManualPin true now) g)) <> 0 /\
                   Simple.isCurrentPourAuto
                     (fst (Simple.step (Simple.ManualPin true now) g)) = 0).
  { split_globals g. run_simple. destruct (ef =? 0); cbn; split; auto; lia. }
  destruct Hfirst as (Hm & Ha).
  destruct (simple_held_auto_clear es _ Hpoll Hm Ha) as (_ & Hclear).
  change (Simple.run es (fst (Simple.step (Simple.ManualPin true now) g)))
    with held in Hclear.
  revert Hclear. generalize held. intros h. split_globals h; cbn.
  intros ->. run_simple.
  destruct (ef =? 0); cbn; [reflexivity |].
  destruct (10 <=? c); cbn; [reflexivity |].
  rewrite andb_false_r. cbn. reflexivity.
Qed.

Lemma simple_release_witness :
  let g := Simple.setup false true 0 0 in
  snd (Simple.determineManual false 3000
         (Simple.run [Simple.ManualPin true 1000; Simple.Poll 800 1500;
                      Simple.Poll 800 2000] g)) = false.
Proof.
  cbv zeta.
  rewrite (simple_release [Simple.Poll 800 1500; Simple.Poll 800 2000]
             1000 3000 (Simple.setup false true 0 0)
             ltac:(repeat constructor)).
  reflexivity.
Defined.
